(** * CodeVisor: the analysis session of [FlowchartGenerator]

    A shallow embedding of the state handling of the React component
    [FlowchartGenerator] (component file of the front end): the submit
    handler [generateFlowchart], the reset handler [handleRefresh], the
    playback effect (the one-second interval) and the three playback
    buttons.

    React state is modelled by a record, one field per [useState] cell the
    handlers touch; a handler is a function on that record.  The [async]
    handler is split at its [await]: the synchronous prefix that issues the
    request, and the continuation that runs when the request settles. *)

From Stdlib Require Import ZArith List Bool String Ascii Lia DecimalString.
Import ListNotations.
Open Scope Z_scope.
Set Warnings "-register-all".

(** ** JavaScript strings and values *)

Module JS.

(** A JavaScript string is a sequence of UTF-16 code units. *)
Definition jsstring := list Z.

(** The code units of an ASCII literal of the source. *)
Definition units (s : string) : jsstring :=
  map (fun a => Z.of_N (N_of_ascii a)) (list_ascii_of_string s).

Fixpoint jsstring_eqb (a b : jsstring) : bool :=
  match a, b with
  | [], [] => true
  | x :: a', y :: b' => (x =? y) && jsstring_eqb a' b'
  | _, _ => false
  end.

(** [WhiteSpace] and [LineTerminator] of ECMAScript: what [String.prototype.trim]
    strips and what [\s] matches. *)
Definition is_whitespace (c : Z) : bool :=
  (c =? 9) || (c =? 10) || (c =? 11) || (c =? 12) || (c =? 13) || (c =? 32)
  || (c =? 160) || (c =? 5760) || ((8192 <=? c) && (c <=? 8202))
  || (c =? 8232) || (c =? 8233) || (c =? 8239) || (c =? 8287)
  || (c =? 12288) || (c =? 65279).

(** [\w] is [[A-Za-z0-9_]]. *)
Definition is_word (c : Z) : bool :=
  ((65 <=? c) && (c <=? 90)) || ((97 <=? c) && (c <=? 122))
  || ((48 <=? c) && (c <=? 57)) || (c =? 95).

(** [.] (without the [s] flag) is everything but a line terminator. *)
Definition is_dot (c : Z) : bool :=
  negb ((c =? 10) || (c =? 13) || (c =? 8232) || (c =? 8233)).

Fixpoint trimStart (s : jsstring) : jsstring :=
  match s with
  | [] => []
  | c :: s' => if is_whitespace c then trimStart s' else s
  end.

Definition trimEnd (s : jsstring) : jsstring := rev (trimStart (rev s)).

(** [s.trim()] *)
Definition trim (s : jsstring) : jsstring := trimEnd (trimStart s).

(** A string made of white space only (the empty string included). *)
Definition blank (s : jsstring) : bool := forallb is_whitespace s.

(** Values as [JSON.parse] and the component's state cells hold them.
    Numbers are used by the component for their truthiness only; the
    integers stand for them.  An object is the list of its properties,
    whose names are distinct in a parsed object; [lookup] reads the first
    binding of a name. *)
Inductive value : Type :=
| VUndefined
| VNull
| VBool (b : bool)
| VNum (n : Z)
| VStr (s : jsstring)
| VArr (items : list value)
| VObj (props : list (jsstring * value)).

(** [ToBoolean] *)
Definition truthy (v : value) : bool :=
  match v with
  | VUndefined | VNull => false
  | VBool b => b
  | VNum n => negb (n =? 0)
  | VStr s => match s with [] => false | _ => true end
  | VArr _ | VObj _ => true
  end.

(** [a || b] *)
Definition js_or (a b : value) : value := if truthy a then a else b.

Fixpoint lookup (k : jsstring) (props : list (jsstring * value)) : value :=
  match props with
  | [] => VUndefined
  | (k', v) :: rest => if jsstring_eqb k k' then v else lookup k rest
  end.

(** [v.k] for a property name [k] that no built-in prototype defines (the
    five response fields): an own property of an object, [undefined] on
    every other value; [None] is the [TypeError] of reading a property of
    [null] or [undefined]. *)
Definition get (v : value) (k : jsstring) : option value :=
  match v with
  | VUndefined | VNull => None
  | VObj props => Some (lookup k props)
  | _ => Some VUndefined
  end.

(** [v.length] where it is a number the model can hold: arrays, strings,
    and objects with a numeric own [length].  [None] stands for
    [undefined], whose comparisons are all false.  An object whose
    [length] is present and no number (which the page would coerce) is
    outside of this; what is proved about the playback below is stated
    for arrays of steps. *)
Definition length_of (v : value) : option Z :=
  match v with
  | VArr items => Some (Z.of_nat (List.length items))
  | VStr s => Some (Z.of_nat (List.length s))
  | VObj props =>
      match lookup (units "length") props with
      | VNum n => Some n
      | _ => None
      end
  | _ => None
  end.

(** *** The regular expression of the default optimized code

    [/for\s+\w+\s+in\s+range\(.*\):/g] is a sequence of literals and of
    greedy repetitions of a character class; the matcher backtracks as the
    ECMAScript one does, longest repetition first. *)
Inductive atom : Type :=
| Lit (s : jsstring)
| Plus (cls : Z -> bool)
| Star (cls : Z -> bool).

Fixpoint strip_prefix (p s : jsstring) : option jsstring :=
  match p, s with
  | [], _ => Some s
  | x :: p', y :: s' => if x =? y then strip_prefix p' s' else None
  | _ :: _, [] => None
  end.

(** [cls*] followed by the continuation [k]: take one more character when
    that leads to a match, give it back otherwise. *)
Fixpoint greedy (cls : Z -> bool) (k : jsstring -> option jsstring)
  (s : jsstring) : option jsstring :=
  match s with
  | [] => k []
  | c :: s' =>
      if cls c then
        match greedy cls k s' with
        | Some r => Some r
        | None => k s
        end
      else k s
  end.

(** A match of the atoms at the head of [s]; the result is what is left of
    [s] after the match. *)
Fixpoint match_atoms (p : list atom) (s : jsstring) : option jsstring :=
  match p with
  | [] => Some s
  | Lit l :: p' =>
      match strip_prefix l s with
      | Some s' => match_atoms p' s'
      | None => None
      end
  | Star cls :: p' => greedy cls (match_atoms p') s
  | Plus cls :: p' =>
      match s with
      | c :: s' => if cls c then greedy cls (match_atoms p') s' else None
      | [] => None
      end
  end.

(** [s.replace(/p/g, repl)] for a pattern that matches no empty string and
    a replacement text without [$]: scan from the left, replace a match
    and resume after it.  [skip] counts the characters of the last match
    still to be passed over. *)
Fixpoint replace_from (p : list atom) (repl : jsstring) (skip : nat)
  (s : jsstring) : jsstring :=
  match s with
  | [] => []
  | c :: s' =>
      match skip with
      | S n => replace_from p repl n s'
      | O =>
          match match_atoms p s with
          | Some r =>
              repl ++ replace_from p repl
                        (List.length s - List.length r - 1)%nat s'
          | None => c :: replace_from p repl O s'
          end
      end
  end.

Definition replace_all (p : list atom) (repl s : jsstring) : jsstring :=
  replace_from p repl O s.

End JS.
Import JS.

(** ** The session state *)

(** The [useState] cells of [FlowchartGenerator] that the submit, reset and
    playback handlers read or write.  The cells of the presentation
    (theme, zoom, toasts, drop-down) are left out. *)
Record State : Type := mkState {
  code : jsstring;
  language : jsstring;
  flowchartSvg : value;
  executionSteps : value;
  currentStep : Z;
  isPlaying : bool;
  loading : bool;
  errorMsg : jsstring;
  complexityAnalysis : value;
  optimizationSuggestions : value;
  memoryAnalysis : value;
  showOptimizedCode : bool;
  showMemoryDetails : bool
}.

(** The initial values of the cells. *)
Definition initial : State :=
  mkState [] (units "python") (VStr []) (VArr []) (-1) false false []
          VNull VNull VNull false false.

Definition setCode (v : jsstring) (s : State) : State :=
  mkState v (language s) (flowchartSvg s) (executionSteps s) (currentStep s)
          (isPlaying s) (loading s) (errorMsg s) (complexityAnalysis s)
          (optimizationSuggestions s) (memoryAnalysis s)
          (showOptimizedCode s) (showMemoryDetails s).

Definition setLanguage (v : jsstring) (s : State) : State :=
  mkState (code s) v (flowchartSvg s) (executionSteps s) (currentStep s)
          (isPlaying s) (loading s) (errorMsg s) (complexityAnalysis s)
          (optimizationSuggestions s) (memoryAnalysis s)
          (showOptimizedCode s) (showMemoryDetails s).

Definition setFlowchartSvg (v : value) (s : State) : State :=
  mkState (code s) (language s) v (executionSteps s) (currentStep s)
          (isPlaying s) (loading s) (errorMsg s) (complexityAnalysis s)
          (optimizationSuggestions s) (memoryAnalysis s)
          (showOptimizedCode s) (showMemoryDetails s).

Definition setExecutionSteps (v : value) (s : State) : State :=
  mkState (code s) (language s) (flowchartSvg s) v (currentStep s)
          (isPlaying s) (loading s) (errorMsg s) (complexityAnalysis s)
          (optimizationSuggestions s) (memoryAnalysis s)
          (showOptimizedCode s) (showMemoryDetails s).

Definition setCurrentStep (v : Z) (s : State) : State :=
  mkState (code s) (language s) (flowchartSvg s) (executionSteps s) v
          (isPlaying s) (loading s) (errorMsg s) (complexityAnalysis s)
          (optimizationSuggestions s) (memoryAnalysis s)
          (showOptimizedCode s) (showMemoryDetails s).

Definition setIsPlaying (v : bool) (s : State) : State :=
  mkState (code s) (language s) (flowchartSvg s) (executionSteps s)
          (currentStep s) v (loading s) (errorMsg s) (complexityAnalysis s)
          (optimizationSuggestions s) (memoryAnalysis s)
          (showOptimizedCode s) (showMemoryDetails s).

Definition setLoading (v : bool) (s : State) : State :=
  mkState (code s) (language s) (flowchartSvg s) (executionSteps s)
          (currentStep s) (isPlaying s) v (errorMsg s) (complexityAnalysis s)
          (optimizationSuggestions s) (memoryAnalysis s)
          (showOptimizedCode s) (showMemoryDetails s).

Definition setErrorMsg (v : jsstring) (s : State) : State :=
  mkState (code s) (language s) (flowchartSvg s) (executionSteps s)
          (currentStep s) (isPlaying s) (loading s) v (complexityAnalysis s)
          (optimizationSuggestions s) (memoryAnalysis s)
          (showOptimizedCode s) (showMemoryDetails s).

Definition setComplexityAnalysis (v : value) (s : State) : State :=
  mkState (code s) (language s) (flowchartSvg s) (executionSteps s)
          (currentStep s) (isPlaying s) (loading s) (errorMsg s) v
          (optimizationSuggestions s) (memoryAnalysis s)
          (showOptimizedCode s) (showMemoryDetails s).

Definition setOptimizationSuggestions (v : value) (s : State) : State :=
  mkState (code s) (language s) (flowchartSvg s) (executionSteps s)
          (currentStep s) (isPlaying s) (loading s) (errorMsg s)
          (complexityAnalysis s) v (memoryAnalysis s)
          (showOptimizedCode s) (showMemoryDetails s).

Definition setMemoryAnalysis (v : value) (s : State) : State :=
  mkState (code s) (language s) (flowchartSvg s) (executionSteps s)
          (currentStep s) (isPlaying s) (loading s) (errorMsg s)
          (complexityAnalysis s) (optimizationSuggestions s) v
          (showOptimizedCode s) (showMemoryDetails s).

Definition setShowOptimizedCode (v : bool) (s : State) : State :=
  mkState (code s) (language s) (flowchartSvg s) (executionSteps s)
          (currentStep s) (isPlaying s) (loading s) (errorMsg s)
          (complexityAnalysis s) (optimizationSuggestions s)
          (memoryAnalysis s) v (showMemoryDetails s).

Definition setShowMemoryDetails (v : bool) (s : State) : State :=
  mkState (code s) (language s) (flowchartSvg s) (executionSteps s)
          (currentStep s) (isPlaying s) (loading s) (errorMsg s)
          (complexityAnalysis s) (optimizationSuggestions s)
          (memoryAnalysis s) (showOptimizedCode s) v.

(** What the spec calls the AnalysisResult: the flowchart, the steps and
    the three analysis slots. *)
Definition result_of (s : State) : value * value * value * value * value :=
  (flowchartSvg s, executionSteps s, complexityAnalysis s,
   optimizationSuggestions s, memoryAnalysis s).

(** The playback cursor. *)
Definition cursor_of (s : State) : Z * bool := (currentStep s, isPlaying s).

(** ** The messages shown to the user *)

Module Msg.

(** U+26A0 U+FE0F, the warning sign, and U+274C, the cross mark. *)
Definition warning_sign : jsstring := [9888; 65039].
Definition cross_mark : jsstring := [10060].

Definition enter_code : jsstring :=
  warning_sign ++ units " Please enter some code.".
Definition generation_failed : jsstring :=
  cross_mark ++ units " Error generating flowchart.".
Definition timed_out : jsstring :=
  cross_mark ++ units " Request timed out. Please try again.".
Definition server_failed : jsstring :=
  cross_mark ++ units " Server failed. Check console.".

End Msg.

(** ** The local defaults of the response fields *)

Module Defaults.

Definition complexity_analysis : value :=
  VObj [ (units "time_complexity", VStr (units "O(n)"));
         (units "space_complexity", VStr (units "O(1)"));
         (units "details",
          VArr [VStr (units
            "Detected 1 loop, leading to linear time complexity.")]) ].

(** [/for\s+\w+\s+in\s+range\(.*\):/g] *)
Definition for_range : list atom :=
  [ Lit (units "for"); Plus is_whitespace; Plus is_word; Plus is_whitespace;
    Lit (units "in"); Plus is_whitespace; Lit (units "range(");
    Star is_dot; Lit (units "):") ].

(** The text put in place of each match; [10] is the line feed. *)
Definition lookup_snippet : jsstring :=
  units "# Optimized: Use dictionary for faster lookups" ++ [10]
  ++ units "lookup_dict = {}" ++ [10]
  ++ units "for key, value in enumerate(range(...)):" ++ [10]
  ++ units "    lookup_dict[key] = value".

Definition optimized_code (code : jsstring) : jsstring :=
  replace_all for_range lookup_snippet code.

Definition suggestions : value :=
  VArr [VStr (units
    "Consider using a dictionary for faster lookups instead of nested loops.")].

Definition optimization_suggestions (code : jsstring) : value :=
  VObj [ (units "suggestions", suggestions);
         (units "optimized_code", VStr (optimized_code code)) ].

Definition memory_analysis : value :=
  VObj [ (units "estimated_memory_usage", VStr (units "N/A"));
         (units "bottlenecks", VArr []);
         (units "suggestions", VArr []) ].

End Defaults.

(** ** Submitting: [generateFlowchart] *)

(** What the closure of one call of [generateFlowchart] keeps across its
    [await]: the [code] and [language] of the render in which the button
    was clicked. *)
Record Pending : Type := mkPending {
  sent_code : jsstring;
  sent_language : jsstring
}.

(** The JSON body of the POST to [/generate-flowchart]. *)
Definition request_body (p : Pending) : value :=
  VObj [ (units "code", VStr (sent_code p));
         (units "language", VStr (sent_language p));
         (units "advanced", VBool true) ].

(** The handler up to its [await fetch(...)]: the new state, and the
    request it issued, if any. *)
Definition generateFlowchart (s : State) : State * option Pending :=
  if negb (truthy (VStr (trim (code s)))) then
    (setErrorMsg Msg.enter_code s, None)
  else
    let s1 := setErrorMsg [] s in
    let s2 := setLoading true s1 in
    let s3 := setCurrentStep (-1) s2 in
    let s4 := setExecutionSteps (VArr []) s3 in
    let s5 := setIsPlaying false s4 in
    let s6 := setComplexityAnalysis VNull s5 in
    let s7 := setOptimizationSuggestions VNull s6 in
    let s8 := setMemoryAnalysis VNull s7 in
    let s9 := setShowOptimizedCode false s8 in
    let s10 := setShowMemoryDetails false s9 in
    (s10, Some (mkPending (code s) (language s))).

(** How the awaited [fetch] ends.  [Aborted]: the ten-second timer called
    [controller.abort()] first.  [NetworkFailure]: [fetch] rejected by
    itself.  [Response status body]: the response arrived; [body] is what
    [response.json()] gives, [None] when it rejects. *)
Inductive FetchResult : Type :=
| NetworkFailure
| Response (status : Z) (body : option value).

Inductive Settled : Type :=
| Aborted
| Completed (r : FetchResult).

(** [response.ok] *)
Definition response_ok (status : Z) : bool :=
  (200 <=? status) && (status <=? 299).

(** What the [try] block can throw. *)
Inductive Thrown : Type :=
| AbortError
| FetchTypeError
| HttpError (status : Z)
| JsonSyntaxError
| PropertyTypeError.

(** [error.name] *)
Definition error_name (e : Thrown) : string :=
  match e with
  | AbortError => "AbortError"
  | FetchTypeError | PropertyTypeError => "TypeError"
  | HttpError _ => "Error"
  | JsonSyntaxError => "SyntaxError"
  end.

(** The [try] block either throws or completes with a result. *)
Definition attempt (A : Type) : Type := Thrown + A.

Definition ret {A : Type} (a : A) : attempt A := inr a.
Definition throw {A : Type} (e : Thrown) : attempt A := inl e.
Definition bind {A B : Type} (m : attempt A) (k : A -> attempt B)
  : attempt B :=
  match m with
  | inl e => inl e
  | inr a => k a
  end.

Notation "x <- m ;; k" := (bind m (fun x => k))
  (at level 61, m at next level, right associativity).

(** [data.k], throwing on [null]. *)
Definition field (data : value) (k : string) : attempt value :=
  match get data (units k) with
  | Some v => ret v
  | None => throw PropertyTypeError
  end.

(** The object [advancedData]. *)
Record AdvancedData : Type := mkAdvancedData {
  flowchart : value;
  execution_steps : value;
  complexity_analysis : value;
  optimization_suggestions : value;
  memory_analysis : value
}.

Definition advancedData (code : jsstring) (data : value)
  : attempt AdvancedData :=
  f <- field data "flowchart" ;;
  e <- field data "execution_steps" ;;
  c <- field data "complexity_analysis" ;;
  o <- field data "optimization_suggestions" ;;
  m <- field data "memory_analysis" ;;
  ret (mkAdvancedData
         (js_or f (VStr []))
         (js_or e (VArr []))
         (js_or c Defaults.complexity_analysis)
         (js_or o (Defaults.optimization_suggestions code))
         (js_or m Defaults.memory_analysis)).

(** The five setters, then the check of the flowchart ([confetti] changes
    no state). *)
Definition apply_response (a : AdvancedData) (s : State) : State :=
  let s1 := setFlowchartSvg (flowchart a) s in
  let s2 := setExecutionSteps (execution_steps a) s1 in
  let s3 := setComplexityAnalysis (complexity_analysis a) s2 in
  let s4 := setOptimizationSuggestions (optimization_suggestions a) s3 in
  let s5 := setMemoryAnalysis (memory_analysis a) s4 in
  if truthy (flowchart a) then s5
  else setErrorMsg Msg.generation_failed s5.

(** [await fetch(...)], [response.ok], [await response.json()]. *)
Definition await_data (o : Settled) : attempt value :=
  match o with
  | Aborted => throw AbortError
  | Completed NetworkFailure => throw FetchTypeError
  | Completed (Response status body) =>
      if negb (response_ok status) then throw (HttpError status)
      else match body with
           | Some data => ret data
           | None => throw JsonSyntaxError
           end
  end.

Definition try_block (p : Pending) (o : Settled) (s : State)
  : attempt State :=
  data <- await_data o ;;
  a <- advancedData (sent_code p) data ;;
  ret (apply_response a s).

Definition catch_block (e : Thrown) (s : State) : State :=
  if String.eqb (error_name e) "AbortError"
  then setErrorMsg Msg.timed_out s
  else setErrorMsg Msg.server_failed s.

Definition finally_block (s : State) : State := setLoading false s.

(** The rest of [generateFlowchart], run on the state of the moment the
    request settles.  Nothing is set before a [throw], so the [catch]
    starts from that same state. *)
Definition generateFlowchart_settled (p : Pending) (o : Settled) (s : State)
  : State :=
  finally_block
    match try_block p o s with
    | inr s' => s'
    | inl e => catch_block e s
    end.

(** *** The deadline

    [setTimeout(() => controller.abort(), 10000)] races the [fetch].  The
    timer is cleared by [clearTimeout(timeoutId)] as soon as the [fetch]
    has resolved, that is when the status line and the headers of the
    response are there; the body is read after that by
    [await response.json()], with no timer running. *)
Definition timeout_ms : Z := 10000.

(** What [response.json()] does: it never settles, or it settles [t]
    milliseconds after the call of [fetch], with the parsed body or with a
    rejection ([None]). *)
Inductive Body : Type :=
| BodyNever
| BodyAt (t : Z) (body : option value).

(** What the network does by itself, in milliseconds after the call of
    [fetch]: nothing at all; a failure of the request at [t]; the status
    line and headers at [t], followed by the body. *)
Inductive Network : Type :=
| Silent
| FailsAt (t : Z)
| HeadersAt (t : Z) (status : Z) (b : Body).

(** When the handler resumes for its [catch] or its setters, and with
    what; [None] when it never does.  A [fetch] still pending at the
    deadline is aborted by the timer (one that settles on the very
    millisecond of the deadline is taken as aborted).  With a status
    outside 2xx the handler throws without reading the body. *)
Definition race (n : Network) : option (Z * Settled) :=
  match n with
  | Silent => Some (timeout_ms, Aborted)
  | FailsAt t =>
      if t <? timeout_ms then Some (t, Completed NetworkFailure)
      else Some (timeout_ms, Aborted)
  | HeadersAt t status b =>
      if t <? timeout_ms then
        if response_ok status then
          match b with
          | BodyAt tb body =>
              Some (Z.max t tb, Completed (Response status body))
          | BodyNever => None
          end
        else Some (t, Completed (Response status None))
      else Some (timeout_ms, Aborted)
  end.

(** The [fetch] has not settled [ms] milliseconds after its call. *)
Definition fetch_unsettled_at (ms : Z) (n : Network) : Prop :=
  match n with
  | Silent => True
  | FailsAt t => ms < t
  | HeadersAt t _ _ => ms < t
  end.

(** The request of the closure [p], issued from the state [s] with
    nothing else happening meanwhile: the time at which the handler ends
    and the state it leaves, or [None] when the handler never ends. *)
Definition request_ends (n : Network) (p : Pending) (s : State)
  : option (Z * State) :=
  match race n with
  | Some (t, o) => Some (t, generateFlowchart_settled p o s)
  | None => None
  end.

(** ** Resetting: [handleRefresh] *)

Definition handleRefresh (s : State) : State :=
  let s1 := setCode [] s in
  let s2 := setLanguage (units "python") s1 in
  let s3 := setFlowchartSvg (VStr []) s2 in
  let s4 := setExecutionSteps (VArr []) s3 in
  let s5 := setCurrentStep (-1) s4 in
  let s6 := setIsPlaying false s5 in
  let s7 := setLoading false s6 in
  let s8 := setErrorMsg [] s7 in
  let s9 := setComplexityAnalysis VNull s8 in
  let s10 := setOptimizationSuggestions VNull s9 in
  let s11 := setMemoryAnalysis VNull s10 in
  let s12 := setShowOptimizedCode false s11 in
  setShowMemoryDetails false s12.

(** ** Playback *)

(** The Play/Pause button: [setIsPlaying(!isPlaying)]. *)
Definition togglePlay (s : State) : State :=
  setIsPlaying (negb (isPlaying s)) s.

(** Step Back: [setIsPlaying(false)], then
    [setCurrentStep(prev => Math.max(prev - 1, -1))]. *)
Definition stepBack (s : State) : State :=
  let s1 := setIsPlaying false s in
  setCurrentStep (Z.max (currentStep s1 - 1) (-1)) s1.

(** Step Forward: [setIsPlaying(false)], then
    [setCurrentStep(prev => Math.min(prev + 1, executionSteps.length - 1))].
    [None] when [executionSteps.length] is no number. *)
Definition stepForward (s : State) : option State :=
  match length_of (executionSteps s) with
  | Some n =>
      let s1 := setIsPlaying false s in
      Some (setCurrentStep (Z.min (currentStep s1 + 1) (n - 1)) s1)
  | None => None
  end.

(** The condition under which the playback effect starts its interval:
    [isPlaying && currentStep < executionSteps.length - 1]; a comparison
    with a length that is no number is false. *)
Definition interval_running (s : State) : bool :=
  match length_of (executionSteps s) with
  | Some n => isPlaying s && (currentStep s <? n - 1)
  | None => false
  end.

(** The callback of the interval, [n] being [executionSteps.length]:
    the updater given to [setCurrentStep]. *)
Definition interval_callback (n : Z) (s : State) : State :=
  if n <=? currentStep s + 1 then setIsPlaying false s
  else setCurrentStep (currentStep s + 1) s.

(** One second passes.  The effect depends on [currentStep], so each
    change ends the interval and the effect decides again whether to
    start one: the callback runs once a second while
    [interval_running] holds, and never otherwise. *)
Definition tick (s : State) : State :=
  match length_of (executionSteps s) with
  | Some n => if interval_running s then interval_callback n s else s
  | None => s
  end.

Fixpoint ticks (k : nat) (s : State) : State :=
  match k with
  | O => s
  | S k' => ticks k' (tick s)
  end.

(** ** The component on the event loop

    Handlers, timers and settled requests run one after the other.  A
    world is the state of the component together with the requests that
    are still awaited; every request issued gets the next generation
    number. *)
Record World : Type := mkWorld {
  ui : State;
  inflight : list (nat * Pending);
  issued : nat
}.

Definition boot : World := mkWorld initial [] O.

Inductive Event : Type :=
| Edit (text : jsstring)          (* typing in the text area: [setCode] *)
| ClickGenerate
| ClickRefresh
| Settle (g : nat) (o : Settled)  (* the request of generation [g] settles *)
| ClickPlay
| ClickStepBack
| ClickStepForward
| Second.                         (* one second of the playback interval *)

(** The playback buttons are rendered under
    [flowchartSvg && executionSteps.length > 0]. *)
Definition controls_shown (s : State) : bool :=
  truthy (flowchartSvg s) &&
  match length_of (executionSteps s) with
  | Some n => 0 <? n
  | None => false
  end.

(** [disabled={currentStep <= -1}] *)
Definition stepBack_disabled (s : State) : bool := currentStep s <=? -1.

(** [disabled={currentStep >= executionSteps.length - 1}] *)
Definition stepForward_disabled (s : State) : bool :=
  match length_of (executionSteps s) with
  | Some n => n - 1 <=? currentStep s
  | None => false
  end.

Fixpoint take_request (g : nat) (l : list (nat * Pending))
  : option (Pending * list (nat * Pending)) :=
  match l with
  | [] => None
  | (g', p) :: rest =>
      if Nat.eqb g g' then Some (p, rest)
      else match take_request g rest with
           | Some (q, rest') => Some (q, (g', p) :: rest')
           | None => None
           end
  end.

(** One event; [None] when it cannot happen (a button that is disabled or
    not rendered, a request that is not awaited). *)
Definition step (w : World) (e : Event) : option World :=
  match e with
  | Edit text => Some (mkWorld (setCode text (ui w)) (inflight w) (issued w))
  | ClickGenerate =>
      if loading (ui w) then None          (* [disabled={loading}] *)
      else match generateFlowchart (ui w) with
           | (s', Some p) =>
               Some (mkWorld s' (inflight w ++ [(issued w, p)]) (S (issued w)))
           | (s', None) => Some (mkWorld s' (inflight w) (issued w))
           end
  | ClickRefresh => Some (mkWorld (handleRefresh (ui w)) (inflight w) (issued w))
  | Settle g o =>
      match take_request g (inflight w) with
      | Some (p, rest) =>
          Some (mkWorld (generateFlowchart_settled p o (ui w)) rest (issued w))
      | None => None
      end
  | ClickPlay =>
      if controls_shown (ui w)
      then Some (mkWorld (togglePlay (ui w)) (inflight w) (issued w))
      else None
  | ClickStepBack =>
      if controls_shown (ui w) && negb (stepBack_disabled (ui w))
      then Some (mkWorld (stepBack (ui w)) (inflight w) (issued w))
      else None
  | ClickStepForward =>
      if controls_shown (ui w) && negb (stepForward_disabled (ui w))
      then match stepForward (ui w) with
           | Some s' => Some (mkWorld s' (inflight w) (issued w))
           | None => None
           end
      else None
  | Second => Some (mkWorld (tick (ui w)) (inflight w) (issued w))
  end.

Fixpoint run (w : World) (es : list Event) : option World :=
  match es with
  | [] => Some w
  | e :: es' =>
      match step w e with
      | Some w' => run w' es'
      | None => None
      end
  end.

(** *** Concrete sessions used below *)

Module Sample.

Definition svg (tag : string) : value := VStr (units tag).

Definition a_step (id : string) : value :=
  VObj [ (units "node_id", VStr (units id));
         (units "description", VStr (units "print")) ].

(** A state that shows the result of an earlier run, with new code typed
    in. *)
Definition shown : State :=
  mkState (units "print(2)") (units "python") (svg "<svg>old</svg>")
          (VArr [a_step "n1"; a_step "n2"; a_step "n3"]) 1 true false []
          Defaults.complexity_analysis
          (Defaults.optimization_suggestions (units "print(1)"))
          Defaults.memory_analysis true true.

(** Three steps on display, cursor not started. *)
Definition three_steps : State :=
  mkState (units "print(1)") (units "python") (svg "<svg/>")
          (VArr [a_step "n1"; a_step "n2"; a_step "n3"]) (-1) false false []
          Defaults.complexity_analysis
          (Defaults.optimization_suggestions (units "print(1)"))
          Defaults.memory_analysis false false.

(** One step on display, cursor not started. *)
Definition one_step : State :=
  mkState (units "print(1)") (units "python") (svg "<svg/>")
          (VArr [a_step "n1"]) (-1) false false []
          Defaults.complexity_analysis
          (Defaults.optimization_suggestions (units "print(1)"))
          Defaults.memory_analysis false false.

Definition ok (data : value) : Settled := Completed (Response 200 (Some data)).

(** A response with a flowchart and one step only. *)
Definition reply (tag : string) : value :=
  VObj [ (units "flowchart", svg tag);
         (units "execution_steps", VArr [a_step "n1"]) ].

(** A response without complexity analysis and with optimization
    suggestions. *)
Definition server_suggestions : list (jsstring * value) :=
  [ (units "suggestions", VArr [VStr (units "Use a set.")]);
    (units "optimized_code", VStr (units "pass")) ].

Definition reply_with_suggestions : value :=
  VObj [ (units "flowchart", svg "<svg/>");
         (units "execution_steps", VArr [a_step "n1"]);
         (units "optimization_suggestions", VObj server_suggestions) ].

(** A response with an empty flowchart and everything else present. *)
Definition reply_without_flowchart : value :=
  VObj [ (units "flowchart", VStr []);
         (units "execution_steps", VArr [a_step "n1"; a_step "n2"]);
         (units "complexity_analysis", VObj [(units "time_complexity", VStr (units "O(1)"))]);
         (units "optimization_suggestions", VObj server_suggestions);
         (units "memory_analysis", VObj [(units "estimated_memory_usage", VStr (units "1 KB"))]) ].

(** Two overlapping submits: the first request is still awaited when the
    page is refreshed, new code is typed and submitted; the second request
    completes. *)
Definition overlap : list Event :=
  [ Edit (units "slow()"); ClickGenerate; ClickRefresh;
    Edit (units "fast()"); ClickGenerate;
    Settle 1 (ok (reply "<svg>fast</svg>")) ].

(** Then the answer to the first request arrives. *)
Definition late_answer : Event := Settle 0 (ok (reply "<svg>slow</svg>")).

End Sample.

(** ** The rest of the component *)

(** *** The counter under the text area

    [{code.length} characters | {code.split(/\s+/).filter(Boolean).length} words] *)
Module Words.

(** [s.split(/p/)] for a pattern without groups that matches no empty
    string: [cur] holds, reversed, the piece being read; a match closes the
    piece and [skip] passes over the rest of the match; the end of the
    string closes the last piece. *)
Fixpoint split_from (p : list atom) (skip : nat) (cur s : jsstring)
  : list jsstring :=
  match s with
  | [] => [rev cur]
  | c :: s' =>
      match skip with
      | S n => split_from p n cur s'
      | O =>
          match match_atoms p s with
          | Some r =>
              rev cur
              :: split_from p (List.length s - List.length r - 1)%nat [] s'
          | None => split_from p O (c :: cur) s'
          end
      end
  end.

Definition split (p : list atom) (s : jsstring) : list jsstring :=
  split_from p O [] s.

(** [/\s+/] *)
Definition whitespace_run : list atom := [Plus is_whitespace].

(** [Boolean] on a string *)
Definition nonempty (s : jsstring) : bool :=
  match s with
  | [] => false
  | _ => true
  end.

(** [code.split(/\s+/).filter(Boolean)] *)
Definition words (code : jsstring) : list jsstring :=
  filter nonempty (split whitespace_run code).

Definition word_count (code : jsstring) : nat := List.length (words code).

End Words.

Definition not_whitespace (c : Z) : bool := negb (is_whitespace c).

(** The characters in front of the first white space, and what follows
    them. *)
Fixpoint word_prefix (s : jsstring) : jsstring :=
  match s with
  | [] => []
  | c :: s' => if is_whitespace c then [] else c :: word_prefix s'
  end.

Fixpoint after_word (s : jsstring) : jsstring :=
  match s with
  | [] => []
  | c :: s' => if is_whitespace c then s else after_word s'
  end.

(** [runs_of s l]: the text [s] is the words of [l] in their order, with
    white space and nothing else in front of them, between them and after
    them; each word is non-empty and free of white space, and what
    follows a word is the end of the text or a white space.  So the words
    of [l] are the maximal runs of [s] that hold no white space. *)
Inductive runs_of : jsstring -> list jsstring -> Prop :=
| runs_blank (s : jsstring) :
    blank s = true -> runs_of s []
| runs_word (sep w rest : jsstring) (l : list jsstring) :
    blank sep = true ->
    w <> [] -> forallb not_whitespace w = true ->
    (rest = [] \/ exists c r, rest = c :: r /\ is_whitespace c = true) ->
    runs_of rest l ->
    runs_of (sep ++ w ++ rest) (w :: l).

(** The texts that [/for\s+\w+\s+in\s+range\(.*\):/] is written for:
    [for], an identifier, [in], [range(], arguments that stay on the
    line, [):], with white space between the words. *)
Definition loop_header (line : jsstring) : Prop :=
  exists w1 name w2 w3 args,
    (w1 <> [] /\ blank w1 = true) /\
    (name <> [] /\ forallb is_word name = true) /\
    (w2 <> [] /\ blank w2 = true) /\
    (w3 <> [] /\ blank w3 = true) /\
    forallb is_dot args = true /\
    line = units "for" ++ w1 ++ name ++ w2 ++ units "in" ++ w3
           ++ units "range(" ++ args ++ units "):".

(** *** Downloading the flowchart *)

Definition no_flowchart_msg : jsstring :=
  Msg.warning_sign ++ units " No flowchart to download!".

(** The file handed to the browser: [new Blob([flowchartSvg], {type})]
    behind a link with the [download] name. *)
Record Download : Type := mkDownload {
  blob_parts : list value;
  blob_type : string;
  file_name : string
}.

Definition downloadFlowchart (s : State) : State * option Download :=
  if negb (truthy (flowchartSvg s)) then
    (setErrorMsg no_flowchart_msg s, None)
  else
    (s, Some (mkDownload [flowchartSvg s] "image/svg+xml" "flowchart.svg")).

(** *** Highlighting the node of the current step *)

Module Highlight.

(** A [g.node] element of the rendered flowchart: the text of its
    [title] child, if it has one, and its [style.filter]. *)
Record Node : Type := mkNode {
  title : option jsstring;
  filter_style : jsstring
}.

Definition glow : jsstring := units "drop-shadow(0 0 5px #ff0)".
Definition none : jsstring := units "none".

(** The decimal name of an index. *)
Definition index_name (i : Z) : jsstring :=
  units (DecimalString.NilZero.string_of_uint (N.to_uint (Z.to_N i))).

(** [v[i]] for an integer [0 <= i]: an element of an array, a character
    of a string, the property of that decimal name of an object. *)
Definition item (v : value) (i : Z) : value :=
  match v with
  | VArr items => nth (Z.to_nat i) items VUndefined
  | VStr s =>
      match nth_error s (Z.to_nat i) with
      | Some c => VStr [c]
      | None => VUndefined
      end
  | VObj props => lookup (index_name i) props
  | _ => VUndefined
  end.

(** [title && title.textContent === nodeId] *)
Definition title_is (nodeId : value) (n : Node) : bool :=
  match title n, nodeId with
  | Some text, VStr id => jsstring_eqb text id
  | _, _ => false
  end.

(** The body of the [forEach]. *)
Definition restyle (nodeId : value) (n : Node) : Node :=
  if title_is nodeId n then mkNode (title n) glow
  else mkNode (title n) none.

(** The effect: the nodes after it, and the node id of the
    [console.warn], if any.  [flowchartRef.current] is the element
    rendered under [flowchartSvg &&], so it is set exactly when
    [flowchartSvg] is truthy; [nodes] are the [g.node] elements found in
    it. *)
Definition effect (nodes : list Node) (s : State)
  : list Node * option value :=
  if truthy (flowchartSvg s)
     && (0 <=? currentStep s)
     && truthy (item (executionSteps s) (currentStep s)) then
    match get (item (executionSteps s) (currentStep s)) (units "node_id") with
    | Some nodeId =>
        (map (restyle nodeId) nodes,
         if existsb (title_is nodeId) nodes then None else Some nodeId)
    | None => (nodes, None)
    end
  else (nodes, None).

End Highlight.

(** *** The helpers of the code parser: [fetchFlowchart], [parsePythonCode]

    Both await a [fetch] without a timer and catch everything. *)
Module CodeParser.

Definition fetching_failed : value := VStr (units "Error fetching flowchart").
Definition no_flowchart : value := VStr (units "Error generating flowchart").

Definition fetchFlowchart (r : FetchResult) : value :=
  match (data <- await_data (Completed r) ;;
         f <- field data "flowchart" ;;
         ret (js_or f no_flowchart)) with
  | inr v => v
  | inl _ => fetching_failed
  end.

Definition parsing_error : value := VArr [VStr (units "Error parsing Python code")].
Definition parsing_failed : value := VArr [VStr (units "Parsing failed")].

Definition parsePythonCode (r : FetchResult) : value :=
  match (data <- await_data (Completed r) ;;
         a <- field data "ast" ;;
         ret (js_or a parsing_failed)) with
  | inr v => v
  | inl _ => parsing_error
  end.

End CodeParser.

(** *** What the reachable worlds keep *)

Definition is_refresh (e : Event) : bool :=
  match e with
  | ClickRefresh => true
  | _ => false
  end.

(** The condition of the execution panel on the cursor and the steps,
    [executionSteps.length > 0 && currentStep >= 0]; the panel then reads
    [executionSteps[currentStep].description]. *)
Definition panel_rendered (s : State) : bool :=
  match length_of (executionSteps s) with
  | Some n => (0 <? n) && (0 <=? currentStep s)
  | None => false
  end.

(** The cursor is idle or on one of the steps. *)
Definition cursor_in_bounds (s : State) : bool :=
  (currentStep s =? -1)
  || match length_of (executionSteps s) with
     | Some n => (0 <=? currentStep s) && (currentStep s <=? n - 1)
     | None => false
     end.

(** Nothing is awaited and the button is enabled, or one request is
    awaited, the button is disabled, and the steps are empty with the
    cursor idle. *)
Definition single_flight (w : World) : Prop :=
  (inflight w = [] /\ loading (ui w) = false) \/
  (exists g p, inflight w = [(g, p)] /\ loading (ui w) = true /\
               executionSteps (ui w) = VArr [] /\
               cursor_of (ui w) = (-1, false)).

(** An answer that follows the response format in its
    [execution_steps]: an array, or nothing truthy. *)
Definition array_or_absent (v : value) : bool :=
  match v with
  | VArr _ => true
  | _ => negb (truthy v)
  end.

Definition steps_as_array (e : Event) : bool :=
  match e with
  | Settle _ (Completed (Response _ (Some data))) =>
      match get data (units "execution_steps") with
      | Some v => array_or_absent v
      | None => true
      end
  | _ => true
  end.

(** [executionSteps] holds an array. *)
Definition steps_listed (s : State) : Prop :=
  exists steps, executionSteps s = VArr steps.

Definition settled_world (w : World) : Prop :=
  single_flight w /\ cursor_in_bounds (ui w) = true.

Module Trace.

(** Two answers of three steps and of one step. *)
Definition long_reply : value :=
  VObj [ (units "flowchart", Sample.svg "<svg>fast</svg>");
         (units "execution_steps",
          VArr [Sample.a_step "n1"; Sample.a_step "n2"; Sample.a_step "n3"]) ].

(** The second of two overlapping requests is answered with three steps,
    the user steps to the last one, then the first request is answered
    with one step. *)
Definition overtaken : list Event :=
  [ Edit (units "slow()"); ClickGenerate; ClickRefresh;
    Edit (units "fast()"); ClickGenerate;
    Settle 1 (Sample.ok long_reply);
    ClickStepForward; ClickStepForward; ClickStepForward;
    Settle 0 (Sample.ok (Sample.reply "<svg>slow</svg>")) ].

End Trace.

(** ** Facts about strings and values *)

Lemma trimStart_blank (s : jsstring) : blank s = true -> trimStart s = [].
Proof.
  induction s as [|c s IH]; simpl; [reflexivity|].
  intros H. apply andb_true_iff in H as [Hc Hs].
  rewrite Hc. exact (IH Hs).
Qed.

Lemma trimStart_empty_blank (s : jsstring) : trimStart s = [] -> blank s = true.
Proof.
  induction s as [|c s IH]; simpl; [reflexivity|].
  destruct (is_whitespace c); [intros H; exact (IH H) | discriminate].
Qed.

Lemma trim_blank (s : jsstring) : blank s = true -> trim s = [].
Proof.
  intros H. unfold trim, trimEnd. rewrite (trimStart_blank s H). reflexivity.
Qed.

Lemma rev_empty {A : Type} (l : list A) : rev l = [] -> l = [].
Proof.
  intros H. rewrite <- (rev_involutive l), H. reflexivity.
Qed.

Lemma blank_rev (s : jsstring) : blank (rev s) = blank s.
Proof.
  unfold blank. induction s as [|c s IH]; simpl; [reflexivity|].
  rewrite forallb_app, IH. simpl. rewrite andb_true_r. apply andb_comm.
Qed.

(** What [trimStart] leaves is empty or starts with a character that is no
    white space. *)
Lemma trimStart_blank_empty (s : jsstring) :
  blank (trimStart s) = true -> trimStart s = [].
Proof.
  induction s as [|c s IH]; simpl; [reflexivity|].
  destruct (is_whitespace c) eqn:Hc; [exact IH|].
  simpl. rewrite Hc. discriminate.
Qed.

(** The guard [!code.trim()] holds on the blank strings and on no other. *)
Lemma trim_empty_iff_blank (s : jsstring) : trim s = [] <-> blank s = true.
Proof.
  split; [|apply trim_blank].
  unfold trim, trimEnd. intros H.
  apply rev_empty, trimStart_empty_blank in H.
  rewrite blank_rev in H.
  apply trimStart_empty_blank, trimStart_blank_empty, H.
Qed.

Lemma object_truthy (props : list (jsstring * value)) : truthy (VObj props) = true.
Proof. reflexivity. Qed.

Lemma js_or_truthy (a b : value) : truthy a = true -> js_or a b = a.
Proof. unfold js_or. intros ->. reflexivity. Qed.

Lemma js_or_falsy (a b : value) : truthy a = false -> js_or a b = b.
Proof. unfold js_or. intros ->. reflexivity. Qed.

(** A value that is [""] after [|| ""] was falsy before. *)
Lemma js_or_empty (a : value) : js_or a (VStr []) = VStr [] -> truthy a = false.
Proof.
  unfold js_or. destruct (truthy a) eqn:Ha; [|reflexivity].
  intros ->. discriminate Ha.
Qed.

(** The flowchart is [""] after the defaulting exactly when the field of
    the response is falsy: absent, [null], [false], [0] or [""]. *)
Lemma empty_after_default_iff_falsy (f : value) :
  js_or f (VStr []) = VStr [] <-> truthy f = false.
Proof.
  split; [apply js_or_empty|]. intros H. apply js_or_falsy. exact H.
Qed.

(** ** Facts about the merge of the response with the defaults *)

(** [advancedData] throws on [null] and [undefined] only; otherwise each of
    its fields is the [||] of the same-named field of the response and of
    the default of that field. *)
Lemma advancedData_fields (code : jsstring) (data : value) (a : AdvancedData) :
  advancedData code data = inr a ->
  exists f e c o m,
    get data (units "flowchart") = Some f /\
    get data (units "execution_steps") = Some e /\
    get data (units "complexity_analysis") = Some c /\
    get data (units "optimization_suggestions") = Some o /\
    get data (units "memory_analysis") = Some m /\
    a = mkAdvancedData (js_or f (VStr [])) (js_or e (VArr []))
          (js_or c Defaults.complexity_analysis)
          (js_or o (Defaults.optimization_suggestions code))
          (js_or m Defaults.memory_analysis).
Proof.
  unfold advancedData, field, bind, ret, throw.
  destruct (get data (units "flowchart")) as [f|]; [|discriminate].
  destruct (get data (units "execution_steps")) as [e|]; [|discriminate].
  destruct (get data (units "complexity_analysis")) as [c|]; [|discriminate].
  destruct (get data (units "optimization_suggestions")) as [o|]; [|discriminate].
  destruct (get data (units "memory_analysis")) as [m|]; [|discriminate].
  intros H. injection H as <-. exists f, e, c, o, m. repeat split; reflexivity.
Qed.

Lemma advancedData_defined (code : jsstring) (data : value) :
  data <> VNull -> data <> VUndefined ->
  exists a, advancedData code data = inr a.
Proof.
  intros Hn Hu. destruct data; try contradiction; eexists; reflexivity.
Qed.

(** The request settled with a 2xx status and a body that parsed: the
    continuation is the five setters and the flowchart check, then
    [setLoading(false)]. *)
Lemma settled_ok (p : Pending) (status : Z) (data : value) (a : AdvancedData)
  (s : State) :
  response_ok status = true ->
  advancedData (sent_code p) data = inr a ->
  generateFlowchart_settled p (Completed (Response status (Some data))) s
  = finally_block (apply_response a s).
Proof.
  intros Hok Ha. unfold generateFlowchart_settled, try_block, await_data.
  rewrite Hok. simpl. rewrite Ha. reflexivity.
Qed.

(** Every way of throwing leaves the result and the cursor as they are. *)
Lemma settled_thrown (p : Pending) (o : Settled) (s : State) (e : Thrown) :
  try_block p o s = inl e ->
  generateFlowchart_settled p o s = finally_block (catch_block e s).
Proof.
  intros H. unfold generateFlowchart_settled. rewrite H. reflexivity.
Qed.

Lemma catch_keeps_result (e : Thrown) (s : State) :
  result_of (finally_block (catch_block e s)) = result_of s /\
  cursor_of (finally_block (catch_block e s)) = cursor_of s.
Proof.
  unfold catch_block. destruct (String.eqb _ _); split; reflexivity.
Qed.

(** A settled request either applies a response or reports what was
    thrown. *)
Lemma settled_cases (p : Pending) (o : Settled) (s : State) :
  (exists a,
     try_block p o s = inr (apply_response a s) /\
     generateFlowchart_settled p o s = finally_block (apply_response a s)) \/
  (exists e,
     try_block p o s = inl e /\
     generateFlowchart_settled p o s = finally_block (catch_block e s)).
Proof.
  unfold generateFlowchart_settled.
  destruct (try_block p o s) as [e|s'] eqn:Ht.
  - right. exists e. split; reflexivity.
  - left. unfold try_block, bind, ret in Ht.
    destruct (await_data o) as [e|data]; [discriminate|].
    destruct (advancedData (sent_code p) data) as [e|a]; [discriminate|].
    injection Ht as <-. exists a. split; reflexivity.
Qed.

Lemma try_block_success (p : Pending) (o : Settled) (s s' : State) :
  try_block p o s = inr s' ->
  exists status data a,
    o = Completed (Response status (Some data)) /\
    response_ok status = true /\
    advancedData (sent_code p) data = inr a /\
    s' = apply_response a s.
Proof.
  unfold try_block, await_data, bind, ret, throw.
  destruct o as [|[|status body]]; try discriminate.
  destruct (response_ok status) eqn:Hok; simpl; [|discriminate].
  destruct body as [data|]; [|discriminate].
  destruct (advancedData (sent_code p) data) as [e|a] eqn:Ha; [discriminate|].
  intros H. injection H as <-. exists status, data, a.
  split; [reflexivity|]. split; [exact Hok|]. split; [exact Ha|reflexivity].
Qed.

(** The two ways a request ends, with what decides between them. *)
Lemma settled_outcomes (p : Pending) (o : Settled) (s : State) :
  (exists status data a,
     o = Completed (Response status (Some data)) /\
     response_ok status = true /\
     advancedData (sent_code p) data = inr a /\
     generateFlowchart_settled p o s = finally_block (apply_response a s)) \/
  (exists e,
     try_block p o s = inl e /\
     generateFlowchart_settled p o s = finally_block (catch_block e s)).
Proof.
  unfold generateFlowchart_settled.
  destruct (try_block p o s) as [e|s'] eqn:Ht.
  - right. exists e. split; reflexivity.
  - left. destruct (try_block_success p o s s' Ht)
      as (status & data & a & Ho & Hok & Ha & ->).
    exists status, data, a. repeat split; assumption.
Qed.

(** The accepted submit: what it clears, and what it keeps. *)
Lemma generateFlowchart_accepted (s : State) :
  blank (code s) = false ->
  exists s',
    generateFlowchart s = (s', Some (mkPending (code s) (language s))) /\
    loading s' = true /\ errorMsg s' = [] /\
    cursor_of s' = (-1, false) /\
    executionSteps s' = VArr [] /\
    complexityAnalysis s' = VNull /\
    optimizationSuggestions s' = VNull /\
    memoryAnalysis s' = VNull /\
    flowchartSvg s' = flowchartSvg s.
Proof.
  intros Hb. unfold generateFlowchart.
  destruct (trim (code s)) as [|c r] eqn:Ht.
  - apply trim_empty_iff_blank in Ht. congruence.
  - simpl. eexists. repeat split.
Qed.

(** ** Submitting *)

(** The rejected submit, for every use below. *)
Lemma generateFlowchart_rejected (s : State) :
  blank (code s) = true ->
  generateFlowchart s = (setErrorMsg Msg.enter_code s, None).
Proof.
  intros Hb. unfold generateFlowchart.
  rewrite (trim_blank _ Hb). reflexivity.
Qed.

(** C1.  When the code is empty or made of white space only, the submit
    handler issues no request, shows the "Please enter some code." message,
    and changes nothing else: the flowchart, the steps, the cursor, the
    analysis slots and the loading flag stay as they were. *)
Theorem blank_code_is_rejected (s : State) :
  blank (code s) = true ->
  generateFlowchart s = (setErrorMsg Msg.enter_code s, None) /\
  let (s', request) := generateFlowchart s in
  request = None /\
  errorMsg s' = Msg.enter_code /\
  result_of s' = result_of s /\
  cursor_of s' = cursor_of s /\
  loading s' = loading s /\
  code s' = code s.
Proof.
  intros Hb. unfold generateFlowchart.
  rewrite (trim_blank _ Hb). simpl. repeat split.
Qed.

Lemma blank_code_is_rejected_witness :
  let s := setCode [32; 10; 9; 160] Sample.shown in
  blank (code s) = true /\
  generateFlowchart s = (setErrorMsg Msg.enter_code s, None) /\
  result_of (fst (generateFlowchart s)) = result_of Sample.shown.
Proof.
  intros s. split; [reflexivity|].
  destruct (blank_code_is_rejected s eq_refl) as [H _].
  split; [exact H|]. rewrite H. reflexivity.
Defined.

(** On the event loop: a click on the button with blank code adds no
    request to the awaited ones and uses no generation number. *)
Lemma blank_click_sends_nothing (w : World) :
  blank (code (ui w)) = true -> loading (ui w) = false ->
  step w ClickGenerate
  = Some (mkWorld (setErrorMsg Msg.enter_code (ui w)) (inflight w) (issued w)).
Proof.
  intros Hb Hl. unfold step. rewrite Hl.
  rewrite (generateFlowchart_rejected (ui w) Hb). reflexivity.
Qed.

(** C3.  The accepted submit resets the cursor and clears the steps and
    the three analysis slots at once, but it does not touch
    [flowchartSvg]: the flowchart of the earlier run stays on display
    while the request is awaited.  [handleRefresh], the other reset of the
    component, does clear it. *)
Theorem submit_keeps_stale_flowchart :
  let (s', request) := generateFlowchart Sample.shown in
  request = Some (mkPending (units "print(2)") (units "python")) /\
  loading s' = true /\
  cursor_of s' = (-1, false) /\
  executionSteps s' = VArr [] /\
  complexityAnalysis s' = VNull /\
  optimizationSuggestions s' = VNull /\
  memoryAnalysis s' = VNull /\
  flowchartSvg s' = Sample.svg "<svg>old</svg>" /\
  flowchartSvg (handleRefresh Sample.shown) = VStr [].
Proof. vm_compute. repeat split. Qed.

(** ** The defaults *)

(** C4, as the claim states it, fails: the same response, without
    [optimization_suggestions], gives two different default objects for
    the submitted codes [a] and [b]. *)
Lemma default_suggestions_depend_on_code :
  let py := units "python" in
  let answer := Sample.ok (Sample.reply "<svg/>") in
  optimizationSuggestions
    (generateFlowchart_settled (mkPending (units "a") py) answer initial)
  <> optimizationSuggestions
       (generateFlowchart_settled (mkPending (units "b") py) answer initial).
Proof. vm_compute. discriminate. Qed.

Lemma optimization_default_injective (c1 c2 : jsstring) :
  Defaults.optimization_suggestions c1 = Defaults.optimization_suggestions c2
  <-> Defaults.optimized_code c1 = Defaults.optimized_code c2.
Proof.
  unfold Defaults.optimization_suggestions. split.
  - intros H. injection H as H. exact H.
  - intros ->. reflexivity.
Qed.

(** C4, amended.  A falsy or absent [complexity_analysis] or
    [memory_analysis] is replaced by a constant that does not mention the
    submitted code.  A falsy or absent [optimization_suggestions] is
    replaced by an object whose [suggestions] are constant and whose
    [optimized_code] is the submitted code with every match of the
    [for ... in range(...):] pattern rewritten; two codes get the same
    default exactly when their rewritten texts are the same. *)
Theorem defaults_fixed_but_optimized_code
  (code1 code2 : jsstring) (data c o m : value) (a1 a2 : AdvancedData) :
  advancedData code1 data = inr a1 ->
  advancedData code2 data = inr a2 ->
  get data (units "complexity_analysis") = Some c ->
  get data (units "optimization_suggestions") = Some o ->
  get data (units "memory_analysis") = Some m ->
  (truthy c = false ->
     complexity_analysis a1 = Defaults.complexity_analysis /\
     complexity_analysis a2 = Defaults.complexity_analysis) /\
  (truthy m = false ->
     memory_analysis a1 = Defaults.memory_analysis /\
     memory_analysis a2 = Defaults.memory_analysis) /\
  (truthy o = false ->
     optimization_suggestions a1
     = VObj [ (units "suggestions", Defaults.suggestions);
              (units "optimized_code",
               VStr (replace_all Defaults.for_range Defaults.lookup_snippet
                       code1)) ] /\
     optimization_suggestions a2
     = VObj [ (units "suggestions", Defaults.suggestions);
              (units "optimized_code",
               VStr (replace_all Defaults.for_range Defaults.lookup_snippet
                       code2)) ] /\
     (optimization_suggestions a1 = optimization_suggestions a2
      <-> Defaults.optimized_code code1 = Defaults.optimized_code code2)).
Proof.
  intros H1 H2 Hc Ho Hm.
  apply advancedData_fields in H1 as (f1 & e1 & c1 & o1 & m1 & _ & _ & Hc1 & Ho1 & Hm1 & ->).
  apply advancedData_fields in H2 as (f2 & e2 & c2 & o2 & m2 & _ & _ & Hc2 & Ho2 & Hm2 & ->).
  rewrite Hc in Hc1, Hc2. rewrite Ho in Ho1, Ho2. rewrite Hm in Hm1, Hm2.
  injection Hc1 as <-. injection Hc2 as <-.
  injection Ho1 as <-. injection Ho2 as <-.
  injection Hm1 as <-. injection Hm2 as <-.
  simpl. repeat split.
  - apply js_or_falsy; assumption.
  - apply js_or_falsy; assumption.
  - apply js_or_falsy; assumption.
  - apply js_or_falsy; assumption.
  - rewrite js_or_falsy by assumption. reflexivity.
  - rewrite js_or_falsy by assumption. reflexivity.
  - rewrite !js_or_falsy by assumption. apply optimization_default_injective.
  - rewrite !js_or_falsy by assumption. apply optimization_default_injective.
Qed.

Lemma defaults_fixed_but_optimized_code_witness :
  let code1 := units "for i in range(3):" in
  let code2 := units "print(1)" in
  let data := Sample.reply "<svg/>" in
  exists a1 a2,
    advancedData code1 data = inr a1 /\
    advancedData code2 data = inr a2 /\
    complexity_analysis a1 = complexity_analysis a2 /\
    memory_analysis a1 = memory_analysis a2 /\
    optimization_suggestions a1
    = VObj [ (units "suggestions", Defaults.suggestions);
             (units "optimized_code", VStr Defaults.lookup_snippet) ] /\
    optimization_suggestions a2
    = VObj [ (units "suggestions", Defaults.suggestions);
             (units "optimized_code", VStr (units "print(1)")) ].
Proof.
  intros code1 code2 data.
  destruct (advancedData code1 data) as [e|a1] eqn:E1; [discriminate E1|].
  destruct (advancedData code2 data) as [e|a2] eqn:E2; [discriminate E2|].
  exists a1, a2.
  destruct (defaults_fixed_but_optimized_code code1 code2 data
              VUndefined VUndefined VUndefined a1 a2 E1 E2
              eq_refl eq_refl eq_refl) as (Hc & Hm & Ho).
  destruct (Hc eq_refl) as [Hc1 Hc2].
  destruct (Hm eq_refl) as [Hm1 Hm2].
  destruct (Ho eq_refl) as (Ho1 & Ho2 & _).
  repeat split.
  - rewrite Hc1, Hc2. reflexivity.
  - rewrite Hm1, Hm2. reflexivity.
  - rewrite Ho1. reflexivity.
  - rewrite Ho2. reflexivity.
Defined.

(** Each slot of the merge reads its own field of the response and no
    other: two responses that agree on one of the three analysis fields
    give the same value in that slot. *)
Lemma merge_is_per_slot (code : jsstring) (d1 d2 : value) (a1 a2 : AdvancedData) :
  advancedData code d1 = inr a1 ->
  advancedData code d2 = inr a2 ->
  (get d1 (units "complexity_analysis") = get d2 (units "complexity_analysis") ->
   complexity_analysis a1 = complexity_analysis a2) /\
  (get d1 (units "optimization_suggestions")
   = get d2 (units "optimization_suggestions") ->
   optimization_suggestions a1 = optimization_suggestions a2) /\
  (get d1 (units "memory_analysis") = get d2 (units "memory_analysis") ->
   memory_analysis a1 = memory_analysis a2).
Proof.
  intros H1 H2.
  apply advancedData_fields in H1 as (f1 & e1 & c1 & o1 & m1 & _ & _ & Hc1 & Ho1 & Hm1 & ->).
  apply advancedData_fields in H2 as (f2 & e2 & c2 & o2 & m2 & _ & _ & Hc2 & Ho2 & Hm2 & ->).
  simpl. repeat split; intros H.
  - rewrite Hc1, Hc2 in H. injection H as ->. reflexivity.
  - rewrite Ho1, Ho2 in H. injection H as ->. reflexivity.
  - rewrite Hm1, Hm2 in H. injection H as ->. reflexivity.
Qed.

Lemma apply_response_slots (a : AdvancedData) (s : State) :
  let s' := finally_block (apply_response a s) in
  flowchartSvg s' = flowchart a /\
  executionSteps s' = execution_steps a /\
  complexityAnalysis s' = complexity_analysis a /\
  optimizationSuggestions s' = optimization_suggestions a /\
  memoryAnalysis s' = memory_analysis a /\
  cursor_of s' = cursor_of s /\
  loading s' = false.
Proof.
  unfold apply_response. destruct (truthy (flowchart a)); repeat split.
Qed.



(** C6.  A 2xx response whose flowchart is [""] after the defaulting ends
    with the "Error generating flowchart." message, whatever the other
    fields of the response are. *)
Theorem empty_flowchart_reports_generation_failed
  (p : Pending) (status : Z) (data : value) (a : AdvancedData) (s : State) :
  response_ok status = true ->
  advancedData (sent_code p) data = inr a ->
  flowchart a = VStr [] ->
  let s' :=
    generateFlowchart_settled p (Completed (Response status (Some data))) s in
  errorMsg s' = Msg.generation_failed /\ loading s' = false.
Proof.
  intros Hok Ha Hf s'. subst s'.
  rewrite (settled_ok p status data a s Hok Ha).
  unfold apply_response. rewrite Hf. simpl. split; reflexivity.
Qed.

Lemma empty_flowchart_reports_generation_failed_witness :
  exists a,
    advancedData (units "print(1)") Sample.reply_without_flowchart = inr a /\
    flowchart a = VStr [] /\
    errorMsg
      (generateFlowchart_settled (mkPending (units "print(1)") (units "python"))
         (Sample.ok Sample.reply_without_flowchart) Sample.shown)
    = Msg.generation_failed.
Proof.
  eexists. split; [reflexivity|]. split; [reflexivity|].
  refine (proj1 (empty_flowchart_reports_generation_failed
                   (mkPending (units "print(1)") (units "python")) 200
                   Sample.reply_without_flowchart _ Sample.shown
                   eq_refl eq_refl eq_refl)).
Defined.

(** C10.  When the flowchart of a 2xx response is empty and the
    "Error generating flowchart." message is shown, the steps and the three
    analysis slots have nevertheless been overwritten, each with the value
    of the server when it is truthy and with its default otherwise, and the
    flowchart on display has been emptied. *)
Theorem generation_failed_still_overwrites
  (p : Pending) (status : Z) (data f e c o m : value) (s : State) :
  response_ok status = true ->
  get data (units "flowchart") = Some f ->
  get data (units "execution_steps") = Some e ->
  get data (units "complexity_analysis") = Some c ->
  get data (units "optimization_suggestions") = Some o ->
  get data (units "memory_analysis") = Some m ->
  truthy f = false ->
  let s' :=
    generateFlowchart_settled p (Completed (Response status (Some data))) s in
  errorMsg s' = Msg.generation_failed /\
  flowchartSvg s' = VStr [] /\
  executionSteps s' = js_or e (VArr []) /\
  complexityAnalysis s' = js_or c Defaults.complexity_analysis /\
  optimizationSuggestions s'
  = js_or o (Defaults.optimization_suggestions (sent_code p)) /\
  memoryAnalysis s' = js_or m Defaults.memory_analysis.
Proof.
  intros Hok Hf He Hc Ho Hm Hff s'. subst s'.
  assert (Ha : advancedData (sent_code p) data
               = inr (mkAdvancedData (js_or f (VStr [])) (js_or e (VArr []))
                        (js_or c Defaults.complexity_analysis)
                        (js_or o (Defaults.optimization_suggestions (sent_code p)))
                        (js_or m Defaults.memory_analysis))).
  { unfold advancedData, field. rewrite Hf, He, Hc, Ho, Hm. reflexivity. }
  rewrite (settled_ok p status data _ s Hok Ha).
  unfold apply_response. simpl.
  rewrite (js_or_falsy f (VStr []) Hff). simpl. repeat split.
Qed.

Lemma generation_failed_still_overwrites_witness :
  let s' :=
    generateFlowchart_settled (mkPending (units "print(1)") (units "python"))
      (Sample.ok (VObj [(units "execution_steps", VArr [Sample.a_step "n9"])]))
      Sample.shown in
  errorMsg s' = Msg.generation_failed /\
  flowchartSvg s' = VStr [] /\
  executionSteps s' = VArr [Sample.a_step "n9"] /\
  complexityAnalysis s' = Defaults.complexity_analysis /\
  optimizationSuggestions s'
  = Defaults.optimization_suggestions (units "print(1)") /\
  memoryAnalysis s' = Defaults.memory_analysis.
Proof.
  exact (generation_failed_still_overwrites
           (mkPending (units "print(1)") (units "python")) 200
           (VObj [(units "execution_steps", VArr [Sample.a_step "n9"])])
           VUndefined (VArr [Sample.a_step "n9"]) VUndefined VUndefined
           VUndefined Sample.shown
           eq_refl eq_refl eq_refl eq_refl eq_refl eq_refl eq_refl).
Defined.

(** ** The deadline *)

(** Of all the ways the awaited request can end, only the abort by the
    timer throws an [AbortError]. *)
Lemma abort_only_from_timer (p : Pending) (o : Settled) (s : State) :
  try_block p o s = inl AbortError <-> o = Aborted.
Proof.
  split; [|intros ->; reflexivity].
  unfold try_block, await_data, bind, ret, throw.
  destruct o as [|[|status body]]; [reflexivity|discriminate|].
  destruct (negb (response_ok status)); [discriminate|].
  destruct body as [data|]; [|discriminate].
  destruct (advancedData (sent_code p) data) as [e|a] eqn:Ha; [|discriminate].
  unfold advancedData, field, bind, ret, throw in Ha.
  destruct data; simpl in Ha; try discriminate;
    injection Ha as <-; discriminate.
Qed.

Lemma timed_out_is_not_server_failed : Msg.timed_out <> Msg.server_failed.
Proof. vm_compute. discriminate. Qed.

Lemma generation_failed_is_not_timed_out :
  Msg.generation_failed <> Msg.timed_out.
Proof. vm_compute. discriminate. Qed.

(** The "Request timed out." message is set by the abort and by nothing
    else. *)
Lemma only_abort_says_timed_out (p : Pending) (o : Settled) (s : State) :
  o <> Aborted ->
  errorMsg s <> Msg.timed_out ->
  errorMsg (generateFlowchart_settled p o s) <> Msg.timed_out.
Proof.
  intros Ho Hs.
  destruct (settled_cases p o s) as [(a & _ & ->)|(e & Ht & ->)].
  - unfold apply_response. destruct (truthy (flowchart a)); simpl.
    + exact Hs.
    + exact generation_failed_is_not_timed_out.
  - destruct e; simpl;
      try (intros H; symmetry in H; exact (timed_out_is_not_server_failed H)).
    exfalso. apply Ho. apply (abort_only_from_timer p o s). exact Ht.
Qed.




(** ** Overlapping submits *)

(** C9, as the claim states it, fails.  The first request is awaited, the
    page is refreshed, new code is submitted and its answer is shown; the
    answer to the first request then replaces the result on display. *)
Lemma stale_response_overwrites :
  let seen es := option_map (fun w => result_of (ui w)) (run boot es) in
  option_map (fun w => map fst (inflight w)) (run boot Sample.overlap)
  = Some [0%nat] /\
  seen Sample.overlap
  = Some (Sample.svg "<svg>fast</svg>", VArr [Sample.a_step "n1"],
          Defaults.complexity_analysis,
          Defaults.optimization_suggestions (units "fast()"),
          Defaults.memory_analysis) /\
  seen (Sample.overlap ++ [Sample.late_answer])
  = Some (Sample.svg "<svg>slow</svg>", VArr [Sample.a_step "n1"],
          Defaults.complexity_analysis,
          Defaults.optimization_suggestions (units "slow()"),
          Defaults.memory_analysis) /\
  seen (Sample.overlap ++ [Sample.late_answer]) <> seen Sample.overlap.
Proof. vm_compute. repeat split. discriminate. Qed.

(** C9, amended.  The answer of any awaited request is applied, however many
    requests were issued after it.  When it is a 2xx response with a body
    that parses and is not [null], the result on display becomes the merge
    of that body, whatever was on display.  When the request ends in a
    failure, the result and the cursor on display stay as they are. *)
Theorem stale_response_is_applied_unguarded
  (w : World) (g : nat) (p : Pending) (rest : list (nat * Pending)) :
  take_request g (inflight w) = Some (p, rest) ->
  (forall status data a,
     response_ok status = true ->
     advancedData (sent_code p) data = inr a ->
     exists w',
       step w (Settle g (Completed (Response status (Some data)))) = Some w' /\
       result_of (ui w')
       = (flowchart a, execution_steps a, complexity_analysis a,
          optimization_suggestions a, memory_analysis a)) /\
  (forall o e,
     try_block p o (ui w) = inl e ->
     exists w',
       step w (Settle g o) = Some w' /\
       result_of (ui w') = result_of (ui w) /\
       cursor_of (ui w') = cursor_of (ui w)).
Proof.
  intros Hg. split.
  - intros status data a Hok Ha. simpl. rewrite Hg.
    eexists. split; [reflexivity|]. simpl.
    rewrite (settled_ok p status data a (ui w) Hok Ha).
    destruct (apply_response_slots a (ui w)) as (H1 & H2 & H3 & H4 & H5 & _).
    unfold result_of. rewrite H1, H2, H3, H4, H5. reflexivity.
  - intros o e He. simpl. rewrite Hg.
    eexists. split; [reflexivity|]. simpl.
    rewrite (settled_thrown p o (ui w) e He).
    apply catch_keeps_result.
Qed.

Lemma stale_response_is_applied_unguarded_witness :
  let p := mkPending (units "slow()") (units "python") in
  let w := mkWorld Sample.three_steps [(0%nat, p)] 2 in
  take_request 0 (inflight w) = Some (p, []) /\
  (exists w',
     step w Sample.late_answer = Some w' /\
     flowchartSvg (ui w') = Sample.svg "<svg>slow</svg>") /\
  (exists w',
     step w (Settle 0 Aborted) = Some w' /\
     result_of (ui w') = result_of Sample.three_steps).
Proof.
  intros p w. split; [reflexivity|].
  destruct (stale_response_is_applied_unguarded w 0 p [] eq_refl) as [Hok Hfail].
  split.
  - destruct (Hok 200 (Sample.reply "<svg>slow</svg>") _ eq_refl eq_refl)
      as (w' & Hs & Hr).
    exists w'. split; [exact Hs|].
    unfold result_of in Hr. injection Hr as Hf _ _ _ _. exact Hf.
  - destruct (Hfail Aborted AbortError eq_refl) as (w' & Hs & Hr & _).
    exists w'. split; [exact Hs|exact Hr].
Defined.

(** ** Playback *)

(** C7, as the claim states it, fails.  After two overlapping submits the
    page shows one step with the cursor at 2; Step Back is enabled there
    and moves the cursor to 1, which is outside of [-1 .. 0]: Step Back
    has no upper clamp. *)
Lemma step_back_is_not_clamped_from_above :
  let seen es :=
    option_map (fun w => (length_of (executionSteps (ui w)),
                          currentStep (ui w), isPlaying (ui w)))
               (run boot es) in
  seen Trace.overtaken = Some (Some 1, 2, false) /\
  seen (Trace.overtaken ++ [ClickStepBack]) = Some (Some 1, 1, false) /\
  ~ (-1 <= 1 <= 1 - 1).
Proof. vm_compute. repeat split. intros [_ H]. apply H. reflexivity. Qed.

(** C7, amended.  With [N] steps on display, Step Forward sets the cursor
    to [min (currentStep + 1) (N - 1)], never above [N-1], and Step Back
    sets it to [max (currentStep - 1) (-1)], never below [-1]; both set
    [isPlaying] to [false], raise nothing and leave the result alone;
    Step Forward at [N-1] and Step Back at [-1] leave the cursor where it
    is.  From a cursor within [-1 .. N-1] both stay within [-1 .. N-1]
    and move by exactly one step unless they are at their end.  (From a
    cursor above [N-1] Step Back moves one step down and may stay above
    [N-1].) *)
Theorem manual_steps_clamp_one_side (s : State) (steps : list value) :
  executionSteps s = VArr steps ->
  (exists s',
     stepForward s = Some s' /\
     isPlaying s' = false /\
     currentStep s'
     = Z.min (currentStep s + 1) (Z.of_nat (List.length steps) - 1) /\
     currentStep s' <= Z.of_nat (List.length steps) - 1 /\
     (currentStep s = Z.of_nat (List.length steps) - 1 ->
      currentStep s' = currentStep s) /\
     (-1 <= currentStep s <= Z.of_nat (List.length steps) - 1 ->
      -1 <= currentStep s' <= Z.of_nat (List.length steps) - 1) /\
     (currentStep s < Z.of_nat (List.length steps) - 1 ->
      currentStep s' = currentStep s + 1) /\
     result_of s' = result_of s) /\
  (isPlaying (stepBack s) = false /\
   currentStep (stepBack s) = Z.max (currentStep s - 1) (-1) /\
   -1 <= currentStep (stepBack s) /\
   (currentStep s = -1 -> currentStep (stepBack s) = currentStep s) /\
   (-1 <= currentStep s <= Z.of_nat (List.length steps) - 1 ->
    -1 <= currentStep (stepBack s) <= Z.of_nat (List.length steps) - 1) /\
   (-1 < currentStep s -> currentStep (stepBack s) = currentStep s - 1) /\
   result_of (stepBack s) = result_of s).
Proof.
  intros Hs. split.
  - unfold stepForward. rewrite Hs. simpl.
    eexists. split; [reflexivity|]. simpl.
    repeat split; lia.
  - unfold stepBack. simpl. repeat split; lia.
Qed.

Lemma manual_steps_clamp_one_side_witness :
  let playing_last := setIsPlaying true (setCurrentStep 2 Sample.three_steps) in
  let playing_idle := setIsPlaying true Sample.three_steps in
  (exists s', stepForward playing_last = Some s' /\ cursor_of s' = (2, false)) /\
  (exists s', stepForward playing_idle = Some s' /\ cursor_of s' = (0, false)) /\
  cursor_of (stepBack playing_idle) = (-1, false) /\
  cursor_of (stepBack playing_last) = (1, false).
Proof.
  intros playing_last playing_idle.
  destruct (manual_steps_clamp_one_side playing_last _ eq_refl)
    as ((s1 & Hf1 & Hp1 & _ & _ & Hend1 & _) & (Hbp1 & _ & _ & _ & _ & Hb1 & _)).
  destruct (manual_steps_clamp_one_side playing_idle _ eq_refl)
    as ((s0 & Hf0 & Hp0 & _ & _ & _ & _ & Hmove0 & _) & (Hbp0 & _ & _ & Hb0 & _)).
  split; [|split; [|split]].
  - exists s1. split; [exact Hf1|]. unfold cursor_of.
    rewrite Hp1, (Hend1 eq_refl). reflexivity.
  - exists s0. split; [exact Hf0|]. unfold cursor_of.
    rewrite Hp0, Hmove0 by (simpl; lia). reflexivity.
  - unfold cursor_of. rewrite Hbp0, (Hb0 eq_refl). reflexivity.
  - unfold cursor_of. rewrite Hbp1, Hb1 by (simpl; lia). reflexivity.
Defined.

(** While the interval runs its callback takes the second branch: the
    branch that calls [setIsPlaying(false)] needs
    [currentStep + 1 >= executionSteps.length], and the interval is only
    started under [currentStep < executionSteps.length - 1]. *)
Lemma running_interval_never_pauses (s : State) (n : Z) :
  length_of (executionSteps s) = Some n ->
  interval_running s = true ->
  tick s = setCurrentStep (currentStep s + 1) s.
Proof.
  intros Hn Hr. unfold tick. rewrite Hn, Hr.
  unfold interval_running in Hr. rewrite Hn in Hr.
  apply andb_true_iff in Hr as [_ Hlt]. apply Z.ltb_lt in Hlt.
  unfold interval_callback.
  destruct (Z.leb_spec n (currentStep s + 1)); [lia|reflexivity].
Qed.

Lemma tick_keeps_isPlaying (s : State) : isPlaying (tick s) = isPlaying s.
Proof.
  unfold tick. destruct (length_of (executionSteps s)) as [n|] eqn:Hn;
    [|reflexivity].
  destruct (interval_running s) eqn:Hr; [|reflexivity].
  pose proof (running_interval_never_pauses s n Hn Hr) as H.
  unfold tick in H. rewrite Hn, Hr in H. rewrite H. reflexivity.
Qed.

(** No number of seconds changes [isPlaying]. *)
Lemma ticks_keep_isPlaying (k : nat) (s : State) :
  isPlaying (ticks k s) = isPlaying s.
Proof.
  revert s. induction k as [|k IH]; intros s; simpl; [reflexivity|].
  rewrite IH. apply tick_keeps_isPlaying.
Qed.

(** Playing from a cursor within range: one step a second up to the last
    step. *)
Lemma autoplay_position (steps : list value) (k : nat) (s : State) :
  executionSteps s = VArr steps ->
  isPlaying s = true ->
  -1 <= currentStep s <= Z.of_nat (List.length steps) - 1 ->
  currentStep (ticks k s)
  = Z.min (currentStep s + Z.of_nat k) (Z.of_nat (List.length steps) - 1) /\
  executionSteps (ticks k s) = VArr steps.
Proof.
  revert s. induction k as [|k IH]; intros s Hs Hp Hc.
  - simpl. split; [lia|exact Hs].
  - cbn [ticks].
    assert (Hn : length_of (executionSteps s)
                 = Some (Z.of_nat (List.length steps))) by (rewrite Hs; reflexivity).
    destruct (interval_running s) eqn:Hr.
    + rewrite (running_interval_never_pauses s _ Hn Hr).
      unfold interval_running in Hr. rewrite Hn, Hp in Hr. simpl in Hr.
      apply Z.ltb_lt in Hr.
      destruct (IH (setCurrentStep (currentStep s + 1) s)) as [Hk He];
        [exact Hs|exact Hp|simpl; lia|].
      rewrite Hk, He. simpl. split; [lia|reflexivity].
    + assert (Ht : tick s = s) by (unfold tick; rewrite Hn, Hr; reflexivity).
      rewrite Ht.
      unfold interval_running in Hr. rewrite Hn, Hp in Hr. simpl in Hr.
      apply Z.ltb_ge in Hr.
      destruct (IH s Hs Hp Hc) as [Hk He]. rewrite Hk, He.
      split; [lia|reflexivity].
Qed.

(** Play from the idle cursor with at least one step: after [k] seconds
    the cursor is at [min (k-1) (N-1)], and [isPlaying] is still [true],
    at the last step too. *)
Lemma autoplay_from_idle (steps : list value) (k : nat) (s : State) :
  executionSteps s = VArr steps ->
  steps <> [] ->
  cursor_of s = (-1, false) ->
  cursor_of (ticks k (togglePlay s))
  = (Z.min (Z.of_nat k - 1) (Z.of_nat (List.length steps) - 1), true).
Proof.
  intros Hs Hne Hc. unfold cursor_of in Hc. injection Hc as Hc Hp.
  assert (Hp' : isPlaying (togglePlay s) = true)
    by (unfold togglePlay; rewrite Hp; reflexivity).
  destruct (autoplay_position steps k (togglePlay s)) as [Hk _].
  - exact Hs.
  - exact Hp'.
  - unfold togglePlay. simpl. rewrite Hc. lia.
  - unfold cursor_of. rewrite Hk, ticks_keep_isPlaying, Hp'.
    unfold togglePlay at 1. simpl. rewrite Hc.
    f_equal. lia.
Qed.

(** C2.  Play from the idle cursor: with one step, after one second the
    cursor is at the last step and [isPlaying] is still [true]; with three
    steps, the cursor is at [min (k-1) 2] after [k] seconds, and
    [isPlaying] is still [true] at the last step, one minute later as
    well. *)
Theorem autoplay_leaves_isPlaying_set :
  cursor_of (ticks 1 (togglePlay Sample.one_step)) = (0, true) /\
  cursor_of (ticks 2 (togglePlay Sample.three_steps)) = (1, true) /\
  cursor_of (ticks 3 (togglePlay Sample.three_steps)) = (2, true) /\
  cursor_of (ticks 60 (togglePlay Sample.three_steps)) = (2, true).
Proof. vm_compute. repeat split. Qed.

(** ** The word counter *)

Lemma trimStart_length (s : jsstring) :
  (List.length (trimStart s) <= List.length s)%nat.
Proof.
  induction s as [|c s IH]; simpl; [lia|].
  destruct (is_whitespace c); simpl; lia.
Qed.

(** The characters [trimStart] drops are white space. *)
Lemma trimStart_drops_whitespace (s : jsstring) :
  forallb is_whitespace
    (firstn (List.length s - List.length (trimStart s)) s) = true.
Proof.
  induction s as [|c s IH]; [reflexivity|].
  cbn [trimStart]. destruct (is_whitespace c) eqn:Hc.
  - pose proof (trimStart_length s). cbn [List.length].
    replace (S (List.length s) - List.length (trimStart s))%nat
      with (S (List.length s - List.length (trimStart s))) by lia.
    cbn [firstn forallb]. rewrite Hc. exact IH.
  - rewrite Nat.sub_diag. reflexivity.
Qed.

(** [\s*] takes all the white space it finds. *)
Lemma greedy_whitespace (s : jsstring) :
  greedy is_whitespace (fun r => Some r) s = Some (trimStart s).
Proof.
  induction s as [|c s IH]; simpl; [reflexivity|].
  destruct (is_whitespace c); [rewrite IH|]; reflexivity.
Qed.

Lemma match_whitespace_run (c : Z) (s : jsstring) :
  match_atoms Words.whitespace_run (c :: s)
  = if is_whitespace c then Some (trimStart s) else None.
Proof.
  simpl. destruct (is_whitespace c); [|reflexivity].
  apply greedy_whitespace.
Qed.

(** The pieces of the split, put end to end, are the characters of the
    string that are no white space. *)
Lemma split_from_concat (s : jsstring) :
  forall (skip : nat) (cur : jsstring),
    forallb is_whitespace (firstn skip s) = true ->
    List.concat (Words.split_from Words.whitespace_run skip cur s)
    = rev cur ++ filter not_whitespace s.
Proof.
  induction s as [|c s IH]; intros skip cur Hskip.
  - simpl. rewrite app_nil_r. reflexivity.
  - destruct skip as [|n].
    + cbn [Words.split_from]. rewrite match_whitespace_run.
      cbn [filter]. replace (not_whitespace c) with (negb (is_whitespace c))
        by reflexivity.
      destruct (is_whitespace c) eqn:Hc; cbn [negb].
      * cbn [List.concat]. rewrite IH.
        -- reflexivity.
        -- cbn [List.length].
           replace (S (List.length s) - List.length (trimStart s) - 1)%nat
             with (List.length s - List.length (trimStart s))%nat by lia.
           apply trimStart_drops_whitespace.
      * rewrite IH by reflexivity. cbn [rev].
        rewrite <- app_assoc. reflexivity.
    + cbn [Words.split_from]. cbn [firstn forallb] in Hskip.
      apply andb_true_iff in Hskip as [Hc Hs].
      rewrite IH by exact Hs. cbn [filter]. unfold not_whitespace.
      rewrite Hc. reflexivity.
Qed.

Lemma forallb_reversed {A : Type} (f : A -> bool) (l : list A) :
  forallb f (rev l) = forallb f l.
Proof.
  induction l as [|x l IH]; simpl; [reflexivity|].
  rewrite forallb_app, IH. simpl. rewrite andb_true_r. apply andb_comm.
Qed.

(** No piece of the split holds white space. *)
Lemma split_from_clean (s : jsstring) :
  forall (skip : nat) (cur : jsstring),
    forallb is_whitespace (firstn skip s) = true ->
    forallb not_whitespace cur = true ->
    Forall (fun w => forallb not_whitespace w = true)
           (Words.split_from Words.whitespace_run skip cur s).
Proof.
  induction s as [|c s IH]; intros skip cur Hskip Hcur.
  - simpl. constructor; [|constructor].
    rewrite forallb_reversed. exact Hcur.
  - destruct skip as [|n].
    + cbn [Words.split_from]. rewrite match_whitespace_run.
      destruct (is_whitespace c) eqn:Hc.
      * constructor.
        -- rewrite forallb_reversed. exact Hcur.
        -- apply IH; [|reflexivity]. cbn [List.length].
           replace (S (List.length s) - List.length (trimStart s) - 1)%nat
             with (List.length s - List.length (trimStart s))%nat by lia.
           apply trimStart_drops_whitespace.
      * apply IH; [reflexivity|]. cbn [forallb].
        unfold not_whitespace at 1. rewrite Hc, Hcur. reflexivity.
    + cbn [Words.split_from]. cbn [firstn forallb] in Hskip.
      apply andb_true_iff in Hskip as [_ Hs]. apply IH; assumption.
Qed.

Lemma concat_filter_nonempty (l : list jsstring) :
  List.concat (filter Words.nonempty l) = List.concat l.
Proof.
  induction l as [|w l IH]; simpl; [reflexivity|].
  destruct w as [|c w]; simpl; rewrite IH; reflexivity.
Qed.

Lemma blank_iff_no_other_character (s : jsstring) :
  blank s = true <-> filter not_whitespace s = [].
Proof.
  unfold blank. induction s as [|c s IH]; simpl; [tauto|].
  unfold not_whitespace at 1. destruct (is_whitespace c); simpl.
  - exact IH.
  - split; discriminate.
Qed.

(** The words put end to end are the code without its white space, and
    each of them is non-empty and free of white space. *)
Lemma words_hold_the_text (code : jsstring) :
  List.concat (Words.words code) = filter not_whitespace code /\
  Forall (fun w => w <> [] /\ forallb not_whitespace w = true)
         (Words.words code).
Proof.
  unfold Words.words, Words.split. split.
  - rewrite concat_filter_nonempty.
    rewrite split_from_concat by reflexivity. reflexivity.
  - pose proof (split_from_clean code O [] eq_refl eq_refl) as H.
    induction H as [|w l Hw Hl IH]; simpl; [constructor|].
    destruct w as [|c w]; simpl; [exact IH|].
    constructor; [|exact IH]. split; [discriminate|exact Hw].
Qed.

(** Passing over [skip] characters is dropping them. *)
Lemma split_from_skipn (p : list atom) (s : jsstring) :
  forall (skip : nat) (cur : jsstring),
    Words.split_from p skip cur s = Words.split_from p O cur (skipn skip s).
Proof.
  induction s as [|c s IH]; intros skip cur.
  - destruct skip; reflexivity.
  - destruct skip as [|n]; [reflexivity|].
    cbn [Words.split_from skipn]. apply IH.
Qed.

Lemma skipn_trimStart (s : jsstring) :
  skipn (List.length s - List.length (trimStart s)) s = trimStart s.
Proof.
  induction s as [|c s IH]; [reflexivity|].
  cbn [trimStart]. destruct (is_whitespace c).
  - pose proof (trimStart_length s). cbn [List.length].
    replace (S (List.length s) - List.length (trimStart s))%nat
      with (S (List.length s - List.length (trimStart s))) by lia.
    cbn [skipn]. exact IH.
  - rewrite Nat.sub_diag. reflexivity.
Qed.

(** What [trimStart] drops is a blank prefix. *)
Lemma trimStart_prefix (s : jsstring) :
  exists b, blank b = true /\ s = b ++ trimStart s.
Proof.
  exists (firstn (List.length s - List.length (trimStart s)) s). split.
  - apply trimStart_drops_whitespace.
  - pose proof (firstn_skipn (List.length s - List.length (trimStart s)) s)
      as H.
    rewrite skipn_trimStart in H. symmetry. exact H.
Qed.

Lemma trimStart_app_blank (b x : jsstring) :
  blank b = true -> trimStart (b ++ x) = trimStart x.
Proof.
  intros H. induction b as [|c b IH]; [reflexivity|].
  unfold blank in H. cbn [forallb] in H.
  apply andb_true_iff in H as [Hc Hb].
  cbn [app trimStart]. rewrite Hc. exact (IH Hb).
Qed.

(** The words of a text that starts with a white space. *)
Lemma words_after_whitespace (c : Z) (s : jsstring) :
  is_whitespace c = true ->
  Words.words (c :: s) = Words.words (trimStart s).
Proof.
  intros Hc. unfold Words.words, Words.split.
  cbn [Words.split_from]. rewrite match_whitespace_run, Hc.
  rewrite split_from_skipn. cbn [List.length].
  replace (S (List.length s) - List.length (trimStart s) - 1)%nat
    with (List.length s - List.length (trimStart s))%nat by lia.
  rewrite skipn_trimStart. reflexivity.
Qed.

Lemma words_trimStart (s : jsstring) :
  Words.words (trimStart s) = Words.words s.
Proof.
  destruct s as [|c s]; [reflexivity|]. cbn [trimStart].
  destruct (is_whitespace c) eqn:Hc; [|reflexivity].
  symmetry. apply words_after_whitespace. exact Hc.
Qed.

(** The split reads a word up to the next white space. *)
Lemma split_reads_a_word (s : jsstring) :
  forall cur : jsstring,
    Words.split_from Words.whitespace_run O cur s
    = (rev cur ++ word_prefix s)
      :: match after_word s with
         | [] => []
         | _ :: r => Words.split_from Words.whitespace_run O [] (trimStart r)
         end.
Proof.
  induction s as [|c s IH]; intros cur.
  - simpl. rewrite app_nil_r. reflexivity.
  - cbn [Words.split_from word_prefix after_word].
    rewrite match_whitespace_run.
    destruct (is_whitespace c) eqn:Hc.
    + rewrite app_nil_r. f_equal.
      rewrite split_from_skipn. cbn [List.length].
      replace (S (List.length s) - List.length (trimStart s) - 1)%nat
        with (List.length s - List.length (trimStart s))%nat by lia.
      rewrite skipn_trimStart. reflexivity.
    + rewrite IH. cbn [rev]. rewrite <- app_assoc. reflexivity.
Qed.

(** The words of a text that starts with another character. *)
Lemma words_after_character (c : Z) (s : jsstring) :
  is_whitespace c = false ->
  Words.words (c :: s)
  = (c :: word_prefix s)
    :: match after_word s with
       | [] => []
       | _ :: r => Words.words (trimStart r)
       end.
Proof.
  intros Hc. unfold Words.words, Words.split.
  rewrite split_reads_a_word. cbn [word_prefix after_word]. rewrite Hc.
  cbn [rev app filter Words.nonempty].
  destruct (after_word s); reflexivity.
Qed.

Lemma word_prefix_facts (s : jsstring) :
  s = word_prefix s ++ after_word s /\
  forallb not_whitespace (word_prefix s) = true /\
  (after_word s = [] \/
   exists c r, after_word s = c :: r /\ is_whitespace c = true) /\
  (List.length (after_word s) <= List.length s)%nat.
Proof.
  induction s as [|c s (IH1 & IH2 & IH3 & IH4)].
  - simpl. repeat split; [left; reflexivity|lia].
  - cbn [word_prefix after_word]. destruct (is_whitespace c) eqn:Hc.
    + repeat split; [right; exists c, s; split; [reflexivity|exact Hc]|lia].
    + cbn [app forallb List.length]. unfold not_whitespace at 1.
      rewrite Hc. repeat split; [f_equal; exact IH1|exact IH2|exact IH3|lia].
Qed.

(** A word followed by the end or by a white space is read whole. *)
Lemma word_prefix_app (w rest : jsstring) :
  forallb not_whitespace w = true ->
  (rest = [] \/ exists c r, rest = c :: r /\ is_whitespace c = true) ->
  word_prefix (w ++ rest) = w /\ after_word (w ++ rest) = rest.
Proof.
  intros Hw Hrest. induction w as [|c w IH].
  - destruct Hrest as [->|(c & r & -> & Hc)]; [split; reflexivity|].
    simpl. rewrite Hc. split; reflexivity.
  - cbn [forallb] in Hw. apply andb_true_iff in Hw as [Hc Hw].
    unfold not_whitespace in Hc. apply negb_true_iff in Hc.
    cbn [app word_prefix after_word]. rewrite Hc.
    destruct (IH Hw) as [-> ->]. split; reflexivity.
Qed.

Lemma runs_after_blank (b s : jsstring) (l : list jsstring) :
  blank b = true -> runs_of s l -> runs_of (b ++ s) l.
Proof.
  intros Hb Hr. destruct Hr as [s Hs|sep w rest l Hsep Hne Hw Hrest Hl].
  - apply runs_blank. unfold blank in *. rewrite forallb_app, Hb, Hs.
    reflexivity.
  - rewrite app_assoc. apply runs_word; try assumption.
    unfold blank in *. rewrite forallb_app, Hb, Hsep. reflexivity.
Qed.

Lemma words_of_blank (s : jsstring) : blank s = true -> Words.words s = [].
Proof.
  intros H. rewrite <- words_trimStart, (trimStart_blank s H). reflexivity.
Qed.

Lemma runs_of_words_bounded (n : nat) :
  forall code : jsstring,
    (List.length code <= n)%nat -> runs_of code (Words.words code).
Proof.
  induction n as [|n IH]; intros code Hn.
  - destruct code; [|simpl in Hn; lia]. apply runs_blank. reflexivity.
  - destruct code as [|c s]; [apply runs_blank; reflexivity|].
    simpl in Hn. destruct (is_whitespace c) eqn:Hc.
    + rewrite (words_after_whitespace c s Hc).
      destruct (trimStart_prefix s) as (b & Hb & Hs).
      rewrite Hs at 1.
      change (c :: b ++ trimStart s) with ((c :: b) ++ trimStart s).
      apply runs_after_blank.
      * unfold blank in *. cbn [forallb]. rewrite Hc, Hb. reflexivity.
      * apply IH. pose proof (trimStart_length s). lia.
    + rewrite (words_after_character c s Hc).
      destruct (word_prefix_facts s) as (Hs & Hw & Hrest & Hlen).
      rewrite Hs at 1.
      change (c :: word_prefix s ++ after_word s)
        with ([] ++ (c :: word_prefix s) ++ after_word s).
      apply runs_word; [reflexivity|discriminate| |exact Hrest|].
      * cbn [forallb]. unfold not_whitespace at 1. rewrite Hc. exact Hw.
      * destruct Hrest as [->|(c' & r & Hr & Hc')]; [apply runs_blank; reflexivity|].
        rewrite Hr in *. destruct (trimStart_prefix r) as (b & Hb & Hrr).
        rewrite Hrr at 1.
        change (c' :: b ++ trimStart r) with ((c' :: b) ++ trimStart r).
        apply runs_after_blank.
        -- unfold blank in *. cbn [forallb]. rewrite Hc', Hb. reflexivity.
        -- apply IH. pose proof (trimStart_length r). simpl in Hlen. lia.
Qed.

(** X1.  The words of the counter are the maximal runs of characters that
    are no white space: the code is made of these words in their order,
    separated, preceded and followed by white space only, each word is
    non-empty, free of white space and followed by the end of the code or
    by a white space; and no other list of words cuts the code in that
    way, so the counter shows the number of such runs. *)
Theorem words_are_the_maximal_runs (code : jsstring) :
  runs_of code (Words.words code) /\
  (forall l, runs_of code l -> l = Words.words code) /\
  (forall l, runs_of code l -> Words.word_count code = List.length l).
Proof.
  assert (Huniq : forall s l, runs_of s l -> l = Words.words s).
  { intros s l Hr.
    induction Hr as [s Hs|sep w rest l Hsep Hne Hw Hrest Hl IH].
    - symmetry. apply words_of_blank. exact Hs.
    - rewrite <- words_trimStart, (trimStart_app_blank sep _ Hsep),
        words_trimStart.
      destruct w as [|c w]; [congruence|].
      cbn [forallb] in Hw. apply andb_true_iff in Hw as [Hc Hw].
      unfold not_whitespace in Hc. apply negb_true_iff in Hc.
      cbn [app]. rewrite (words_after_character c _ Hc).
      destruct (word_prefix_app w rest Hw Hrest) as [-> ->].
      f_equal. rewrite IH.
      destruct Hrest as [->|(c' & r & -> & Hc')]; [reflexivity|].
      apply words_after_whitespace. exact Hc'. }
  split; [|split].
  - apply (runs_of_words_bounded (List.length code)). lia.
  - apply Huniq.
  - intros l Hl. rewrite (Huniq code l Hl). reflexivity.
Qed.

(** X2.  The counter shows 0 words exactly for the codes that the submit
    handler turns down without a request. *)
Theorem no_words_iff_rejected (s : State) :
  Words.word_count (code s) = 0%nat <-> snd (generateFlowchart s) = None.
Proof.
  assert (Hw : Words.word_count (code s) = 0%nat <-> blank (code s) = true).
  { destruct (words_hold_the_text (code s)) as [Hc Hf].
    unfold Words.word_count. rewrite blank_iff_no_other_character, <- Hc.
    destruct (Words.words (code s)) as [|w l]; simpl; [tauto|].
    split; [discriminate|].
    inversion Hf as [|? ? [Hne _] _]; subst.
    destruct w; [congruence|discriminate]. }
  rewrite Hw. split.
  - intros Hb. rewrite (generateFlowchart_rejected s Hb). reflexivity.
  - intros Hn. destruct (blank (code s)) eqn:Hb; [reflexivity|].
    destruct (generateFlowchart_accepted s Hb) as (s' & Hs & _).
    rewrite Hs in Hn. discriminate.
Qed.

(** ** What every run of the component keeps *)

(** Whatever the request ends with, the button is enabled again and the
    cursor is where it was. *)
Lemma settled_keeps_cursor (p : Pending) (o : Settled) (s : State) :
  loading (generateFlowchart_settled p o s) = false /\
  cursor_of (generateFlowchart_settled p o s) = cursor_of s.
Proof.
  destruct (settled_cases p o s) as [(a & _ & ->)|(e & _ & ->)].
  - destruct (apply_response_slots a s) as (_ & _ & _ & _ & _ & Hc & Hl).
    split; assumption.
  - split; [|apply catch_keeps_result].
    unfold catch_block. destruct (String.eqb _ _); reflexivity.
Qed.

Lemma tick_idle (s : State) : interval_running s = false -> tick s = s.
Proof.
  intros H. unfold tick. rewrite H.
  destruct (length_of (executionSteps s)); reflexivity.
Qed.

Lemma not_playing_not_running (s : State) :
  isPlaying s = false -> interval_running s = false.
Proof.
  intros H. unfold interval_running. rewrite H.
  destruct (length_of (executionSteps s)); reflexivity.
Qed.

Lemma ticks_idle (k : nat) (s : State) : isPlaying s = false -> ticks k s = s.
Proof.
  intros H. induction k as [|k IH]; simpl; [reflexivity|].
  rewrite (tick_idle s (not_playing_not_running s H)). exact IH.
Qed.

(** One second moves the cursor by one step at most, upwards, and only
    onto a step. *)
Lemma tick_cursor (s : State) :
  tick s = s \/
  (exists n, length_of (executionSteps s) = Some n /\
             currentStep s < n - 1 /\
             tick s = setCurrentStep (currentStep s + 1) s).
Proof.
  destruct (interval_running s) eqn:Hr; [|left; apply tick_idle, Hr].
  right. unfold interval_running in Hr.
  destruct (length_of (executionSteps s)) as [n|] eqn:Hn; [|discriminate].
  exists n. apply andb_true_iff in Hr as [Hp Hlt]. apply Z.ltb_lt in Hlt.
  split; [reflexivity|]. split; [exact Hlt|].
  apply (running_interval_never_pauses s n Hn).
  unfold interval_running. rewrite Hn, Hp. apply Z.ltb_lt in Hlt.
  rewrite Hlt. reflexivity.
Qed.

Lemma controls_shown_length (s : State) :
  controls_shown s = true ->
  exists n, length_of (executionSteps s) = Some n /\ 0 < n.
Proof.
  unfold controls_shown. intros H. apply andb_true_iff in H as [_ H].
  destruct (length_of (executionSteps s)) as [n|]; [|discriminate].
  exists n. split; [reflexivity|]. apply Z.ltb_lt. exact H.
Qed.

(** One event never takes the cursor below the idle position. *)
Lemma step_keeps_lower_bound (w w' : World) (e : Event) :
  -1 <= currentStep (ui w) ->
  step w e = Some w' ->
  -1 <= currentStep (ui w').
Proof.
  intros Hc Hs. destruct e; simpl in Hs.
  - injection Hs as <-. exact Hc.
  - destruct (loading (ui w)); [discriminate|].
    destruct (blank (code (ui w))) eqn:Hb.
    + rewrite (generateFlowchart_rejected _ Hb) in Hs.
      injection Hs as <-. exact Hc.
    + destruct (generateFlowchart_accepted _ Hb)
        as (s' & Hg & _ & _ & Hcur & _).
      rewrite Hg in Hs. injection Hs as <-. simpl.
      unfold cursor_of in Hcur. injection Hcur as -> _. lia.
  - injection Hs as <-. simpl. lia.
  - destruct (take_request g (inflight w)) as [[p rest]|]; [|discriminate].
    injection Hs as <-. simpl.
    destruct (settled_keeps_cursor p o (ui w)) as [_ Hcur].
    unfold cursor_of in Hcur. injection Hcur as -> _. exact Hc.
  - destruct (controls_shown (ui w)); [|discriminate].
    injection Hs as <-. exact Hc.
  - destruct (controls_shown (ui w) && negb (stepBack_disabled (ui w)));
      [|discriminate].
    injection Hs as <-. simpl. lia.
  - destruct (controls_shown (ui w)) eqn:Hshown; [|discriminate].
    destruct (negb (stepForward_disabled (ui w))); [|discriminate].
    simpl in Hs. destruct (controls_shown_length _ Hshown) as (n & Hn & Hpos).
    unfold stepForward in Hs. rewrite Hn in Hs.
    injection Hs as <-. simpl. lia.
  - injection Hs as <-. simpl.
    destruct (tick_cursor (ui w)) as [->|(n & _ & _ & ->)]; simpl; lia.
Qed.

(** An answer whose [execution_steps] is an array or nothing truthy
    leaves an array in [executionSteps]. *)
Lemma settled_keeps_steps_listed (g : nat) (p : Pending) (o : Settled)
  (s : State) :
  steps_listed s ->
  steps_as_array (Settle g o) = true ->
  steps_listed (generateFlowchart_settled p o s).
Proof.
  intros Hs Ho.
  destruct (settled_outcomes p o s)
    as [(status & data & a & -> & _ & Ha & ->)|(e & _ & ->)].
  - unfold steps_listed.
    destruct (apply_response_slots a s) as (_ & -> & _).
    apply advancedData_fields in Ha
      as (f & e & c & o' & m & _ & Hget & _ & _ & _ & ->).
    cbn [steps_as_array] in Ho. rewrite Hget in Ho. cbn [execution_steps].
    destruct e as [| |b|n|str|items|props]; cbn [array_or_absent] in Ho;
      try (exists items; reflexivity);
      try (apply negb_true_iff in Ho;
           rewrite (js_or_falsy _ _ Ho); exists []; reflexivity).
  - destruct Hs as [steps Hs]. exists steps. rewrite <- Hs.
    unfold catch_block. destruct (String.eqb _ _); reflexivity.
Qed.

Lemma step_keeps_steps_listed (w w' : World) (e : Event) :
  steps_listed (ui w) ->
  steps_as_array e = true ->
  step w e = Some w' ->
  steps_listed (ui w').
Proof.
  intros Hl He Hs. destruct e; simpl in Hs.
  - injection Hs as <-. exact Hl.
  - destruct (loading (ui w)); [discriminate|].
    destruct (blank (code (ui w))) eqn:Hb.
    + rewrite (generateFlowchart_rejected _ Hb) in Hs.
      injection Hs as <-. exact Hl.
    + destruct (generateFlowchart_accepted _ Hb)
        as (s' & Hg & _ & _ & _ & Hsteps & _).
      rewrite Hg in Hs. injection Hs as <-. exists []. exact Hsteps.
  - injection Hs as <-. exists []. reflexivity.
  - destruct (take_request g (inflight w)) as [[p rest]|]; [|discriminate].
    injection Hs as <-. cbn [ui].
    apply (settled_keeps_steps_listed g); assumption.
  - destruct (controls_shown (ui w)); [|discriminate].
    injection Hs as <-. exact Hl.
  - destruct (controls_shown (ui w) && negb (stepBack_disabled (ui w)));
      [|discriminate].
    injection Hs as <-. exact Hl.
  - destruct (controls_shown (ui w) && negb (stepForward_disabled (ui w)));
      [|discriminate].
    unfold stepForward in Hs.
    destruct (length_of (executionSteps (ui w))); [|discriminate].
    injection Hs as <-. exact Hl.
  - injection Hs as <-. cbn [ui].
    destruct (tick_cursor (ui w)) as [->|(n & _ & _ & ->)]; exact Hl.
Qed.

Lemma cursor_stays_above_idle (es : list Event) (w : World) :
  forallb steps_as_array es = true ->
  run boot es = Some w ->
  steps_listed (ui w) /\ -1 <= currentStep (ui w).
Proof.
  assert (H : forall es w0 w,
                steps_listed (ui w0) /\ -1 <= currentStep (ui w0) ->
                forallb steps_as_array es = true ->
                run w0 es = Some w ->
                steps_listed (ui w) /\ -1 <= currentStep (ui w)).
  { clear es w. induction es as [|e es IH]; intros w0 w [Hl Hc] Ha Hr;
      simpl in Hr.
    - injection Hr as <-. split; assumption.
    - destruct (step w0 e) as [w1|] eqn:Hs; [|discriminate].
      cbn [forallb] in Ha. apply andb_true_iff in Ha as [He Ha].
      apply (IH w1 w); [|exact Ha|exact Hr]. split.
      + apply (step_keeps_steps_listed w0 w1 e Hl He Hs).
      + apply (step_keeps_lower_bound w0 w1 e Hc Hs). }
  apply H. split; [exists []; reflexivity|simpl; lia].
Qed.

(** X3.  In every run of the component in which the answers carry an
    array, or nothing truthy, as [execution_steps] (with refreshes and
    overlapping requests too): [executionSteps] is an array at every
    moment, and the cursor is never below the idle position [-1]. *)
Theorem cursor_never_below_idle (es : list Event) (w : World) :
  forallb steps_as_array es = true ->
  run boot es = Some w ->
  steps_listed (ui w) /\ -1 <= currentStep (ui w).
Proof. exact (cursor_stays_above_idle es w). Qed.

Lemma cursor_never_below_idle_witness :
  exists w,
    run boot Trace.overtaken = Some w /\
    steps_listed (ui w) /\ -1 <= currentStep (ui w).
Proof.
  destruct (run boot Trace.overtaken) as [w|] eqn:Hr; [|discriminate Hr].
  exists w. split; [reflexivity|].
  exact (cursor_never_below_idle Trace.overtaken w eq_refl Hr).
Defined.

Lemma in_bounds_cases (s : State) :
  cursor_in_bounds s = true ->
  currentStep s = -1 \/
  (exists n, length_of (executionSteps s) = Some n /\
             0 <= currentStep s <= n - 1).
Proof.
  unfold cursor_in_bounds. intros H. apply orb_true_iff in H as [H|H].
  - left. apply Z.eqb_eq. exact H.
  - right. destruct (length_of (executionSteps s)) as [n|]; [|discriminate].
    exists n. apply andb_true_iff in H as [H1 H2].
    apply Z.leb_le in H1. apply Z.leb_le in H2. split; [reflexivity|lia].
Qed.

Lemma in_bounds_idle (s : State) :
  currentStep s = -1 -> cursor_in_bounds s = true.
Proof.
  intros H. unfold cursor_in_bounds. rewrite H. reflexivity.
Qed.

Lemma in_bounds_on_step (s : State) (n : Z) :
  length_of (executionSteps s) = Some n ->
  0 <= currentStep s <= n - 1 ->
  cursor_in_bounds s = true.
Proof.
  intros Hn Hc. unfold cursor_in_bounds. rewrite Hn.
  apply orb_true_iff. right. apply andb_true_iff.
  split; apply Z.leb_le; lia.
Qed.

(** While a request is awaited nothing of the playback can be used. *)
Lemma no_controls_without_steps (s : State) :
  executionSteps s = VArr [] -> controls_shown s = false.
Proof.
  intros H. unfold controls_shown. rewrite H. simpl. apply andb_false_r.
Qed.

(** One event other than a refresh keeps a world single-flight with the
    cursor in bounds. *)
Lemma step_keeps_settled_world (w w' : World) (e : Event) :
  settled_world w ->
  is_refresh e = false ->
  step w e = Some w' ->
  settled_world w'.
Proof.
  intros [Hf Hb] Hne Hs. unfold settled_world, single_flight in *.
  destruct e; simpl in Hs; try discriminate Hne.
  - (* typing *)
    injection Hs as <-. simpl. split; [exact Hf|exact Hb].
  - (* the Generate button *)
    destruct (loading (ui w)) eqn:Hl; [discriminate|].
    destruct Hf as [[Hi _]|(g & p & _ & Hl' & _)]; [|congruence].
    destruct (blank (code (ui w))) eqn:Hbl.
    + rewrite (generateFlowchart_rejected _ Hbl) in Hs.
      injection Hs as <-. simpl. split; [left; split; assumption|exact Hb].
    + destruct (generateFlowchart_accepted _ Hbl)
        as (s' & Hg & Hload & _ & Hcur & Hsteps & _).
      rewrite Hg in Hs. injection Hs as <-. simpl. split.
      * right. exists (issued w), (mkPending (code (ui w)) (language (ui w))).
        rewrite Hi. repeat split; assumption.
      * apply in_bounds_idle. unfold cursor_of in Hcur.
        injection Hcur as -> _. reflexivity.
  - (* a request settles *)
    destruct (take_request g (inflight w)) as [[p rest]|] eqn:Ht;
      [|discriminate].
    injection Hs as <-. simpl.
    destruct Hf as [[Hi _]|(g0 & p0 & Hi & _ & _ & Hcur)];
      rewrite Hi in Ht; simpl in Ht; [discriminate|].
    destruct (Nat.eqb g g0); [|discriminate].
    injection Ht as <- <-.
    destruct (settled_keeps_cursor p0 o (ui w)) as [Hl Hc]. split.
    + left. split; [reflexivity|exact Hl].
    + apply in_bounds_idle. rewrite Hcur in Hc.
      exact (f_equal fst Hc).
  - (* Play and Pause *)
    destruct (controls_shown (ui w)) eqn:Hshown; [|discriminate].
    injection Hs as <-. simpl.
    destruct Hf as [Hf|(g & p & _ & _ & Hsteps & _)].
    + split; [left; exact Hf|exact Hb].
    + rewrite (no_controls_without_steps _ Hsteps) in Hshown. discriminate.
  - (* Step Back *)
    destruct (controls_shown (ui w)) eqn:Hshown; [|discriminate].
    destruct (stepBack_disabled (ui w)) eqn:Hd; [discriminate|].
    injection Hs as <-. simpl.
    destruct Hf as [Hf|(g & p & _ & _ & Hsteps & _)].
    + split; [left; exact Hf|].
      unfold stepBack_disabled in Hd. apply Z.leb_gt in Hd.
      destruct (in_bounds_cases _ Hb) as [Hc|(n & Hn & Hc)]; [lia|].
      destruct (Z.eq_dec (currentStep (ui w)) 0) as [H0|H0].
      * apply in_bounds_idle. simpl. lia.
      * apply (in_bounds_on_step _ n); [exact Hn|simpl; lia].
    + rewrite (no_controls_without_steps _ Hsteps) in Hshown. discriminate.
  - (* Step Forward *)
    destruct (controls_shown (ui w)) eqn:Hshown; [|discriminate].
    destruct (stepForward_disabled (ui w)) eqn:Hd; [discriminate|].
    simpl in Hs. destruct (controls_shown_length _ Hshown) as (n & Hn & Hpos).
    unfold stepForward in Hs. rewrite Hn in Hs. injection Hs as <-. simpl.
    destruct Hf as [Hf|(g & p & _ & _ & Hsteps & _)].
    + split; [left; exact Hf|].
      unfold stepForward_disabled in Hd. rewrite Hn in Hd.
      apply Z.leb_gt in Hd.
      apply (in_bounds_on_step _ n); [exact Hn|]. simpl.
      destruct (in_bounds_cases _ Hb) as [Hc|(n' & Hn' & Hc)]; lia.
    + rewrite (no_controls_without_steps _ Hsteps) in Hshown. discriminate.
  - (* one second *)
    injection Hs as <-. simpl.
    destruct Hf as [Hf|(g & p & Hi & Hl & Hsteps & Hcur)].
    + destruct (tick_cursor (ui w)) as [->|(n & Hn & Hlt & ->)].
      * split; [left; exact Hf|exact Hb].
      * split; [left; exact Hf|].
        apply (in_bounds_on_step _ n); [exact Hn|]. simpl.
        destruct (in_bounds_cases _ Hb) as [Hc|(n' & Hn' & Hc)]; lia.
    + unfold cursor_of in Hcur. injection Hcur as Hc Hp.
      rewrite (tick_idle _ (not_playing_not_running _ Hp)).
      split; [|exact Hb]. right. exists g, p.
      unfold cursor_of. rewrite Hc, Hp. repeat split; assumption.
Qed.

(** X4.  As long as the page is not refreshed, in every run in which the
    answers carry an array, or nothing truthy, as [execution_steps]: at
    most one request is awaited; while it is awaited the button is
    disabled, the steps are empty and the cursor is idle; the cursor is
    idle or on one of the steps; and whenever the execution panel is
    rendered, [executionSteps[currentStep]] is one of the steps. *)
Theorem single_flight_without_refresh (es : list Event) (w : World) :
  existsb is_refresh es = false ->
  forallb steps_as_array es = true ->
  run boot es = Some w ->
  single_flight w /\
  (List.length (inflight w) <= 1)%nat /\
  exists steps,
    executionSteps (ui w) = VArr steps /\
    -1 <= currentStep (ui w) <= Z.of_nat (List.length steps) - 1 /\
    (panel_rendered (ui w) = true ->
     0 <= currentStep (ui w) /\
     exists step,
       nth_error steps (Z.to_nat (currentStep (ui w))) = Some step /\
       Highlight.item (executionSteps (ui w)) (currentStep (ui w)) = step).
Proof.
  intros Hne Ha Hr.
  assert (H : forall es w0 w, settled_world w0 ->
                existsb is_refresh es = false ->
                run w0 es = Some w -> settled_world w).
  { clear es w Hne Ha Hr. induction es as [|e es IH]; intros w0 w H0 Hne Hr;
      simpl in Hr.
    - injection Hr as <-. exact H0.
    - destruct (step w0 e) as [w1|] eqn:Hs; [|discriminate].
      simpl in Hne. apply orb_false_iff in Hne as [He Hes].
      apply (IH w1 w); [|exact Hes|exact Hr].
      apply (step_keeps_settled_world w0 w1 e H0 He Hs). }
  destruct (H es boot w) as [Hf Hb]; [|exact Hne|exact Hr|].
  { split; [left; split; reflexivity|reflexivity]. }
  destruct (cursor_stays_above_idle es w Ha Hr) as [[steps Hsteps] Hlow].
  split; [exact Hf|]. split.
  { destruct Hf as [[-> _]|(g & p & -> & _)]; simpl; lia. }
  exists steps. split; [exact Hsteps|].
  assert (Hn : length_of (executionSteps (ui w))
               = Some (Z.of_nat (List.length steps)))
    by (rewrite Hsteps; reflexivity).
  assert (Hrange : -1 <= currentStep (ui w) <= Z.of_nat (List.length steps) - 1).
  { destruct (in_bounds_cases _ Hb) as [Hi|(n' & Hn' & Hi)]; [lia|].
    rewrite Hn in Hn'. injection Hn' as <-. lia. }
  split; [exact Hrange|].
  intros Hp. unfold panel_rendered in Hp. rewrite Hn in Hp.
  apply andb_true_iff in Hp as [_ Hc]. apply Z.leb_le in Hc.
  split; [exact Hc|].
  destruct (nth_error steps (Z.to_nat (currentStep (ui w)))) as [step|] eqn:Hnth.
  - exists step. split; [reflexivity|].
    rewrite Hsteps. cbn [Highlight.item].
    apply nth_error_nth. exact Hnth.
  - apply nth_error_None in Hnth. lia.
Qed.

Lemma single_flight_without_refresh_witness :
  let es := [ Edit (units "print(1)"); ClickGenerate;
              Settle 0 (Sample.ok Trace.long_reply);
              ClickPlay; Second; Second; ClickStepBack ] in
  exists w,
    run boot es = Some w /\
    cursor_of (ui w) = (0, false) /\
    inflight w = [] /\
    exists step,
      Highlight.item (executionSteps (ui w)) (currentStep (ui w)) = step /\
      step = Sample.a_step "n1".
Proof.
  intros es.
  assert (H : exists w, run boot es = Some w /\
                        cursor_of (ui w) = (0, false) /\
                        inflight w = [] /\
                        panel_rendered (ui w) = true /\
                        Highlight.item (executionSteps (ui w))
                          (currentStep (ui w)) = Sample.a_step "n1").
  { eexists. split; [vm_compute; reflexivity|]. repeat split. }
  destruct H as (w & Hr & Hc & Hi & Hp & Hitem).
  exists w. split; [exact Hr|]. split; [exact Hc|]. split; [exact Hi|].
  destruct (single_flight_without_refresh es w eq_refl eq_refl Hr)
    as (_ & _ & steps & _ & _ & Hpanel).
  destruct (Hpanel Hp) as (_ & step & _ & Hs).
  exists step. split; [exact Hs|]. rewrite <- Hs. exact Hitem.
Defined.

(** X5.  With a refresh the bound is lost: two requests overlap, the
    later one is answered with three steps and the user steps to the
    last, the earlier one is answered with one step; the execution panel
    is then rendered with the cursor beyond the steps, where
    [executionSteps[currentStep]] is [undefined]. *)
Theorem refresh_lets_cursor_leave_the_steps :
  exists es w,
    run boot es = Some w /\
    existsb is_refresh es = true /\
    panel_rendered (ui w) = true /\
    cursor_in_bounds (ui w) = false /\
    length_of (executionSteps (ui w)) = Some 1 /\
    currentStep (ui w) = 2 /\
    Highlight.item (executionSteps (ui w)) (currentStep (ui w)) = VUndefined.
Proof.
  exists Trace.overtaken. eexists.
  split; [vm_compute; reflexivity|]. repeat split.
Qed.

(** ** How the handlers compose *)

(** X6.  A refresh stops the autoplay, and so does a submit that is
    accepted: however many seconds pass afterwards, nothing moves. *)
Theorem reset_stops_autoplay (s : State) (k : nat) :
  ticks k (handleRefresh s) = handleRefresh s /\
  (blank (code s) = false ->
   ticks k (fst (generateFlowchart s)) = fst (generateFlowchart s)).
Proof.
  split.
  - apply ticks_idle. reflexivity.
  - intros Hb. apply ticks_idle.
    destruct (generateFlowchart_accepted s Hb) as (s' & -> & _ & _ & Hc & _).
    exact (f_equal snd Hc).
Qed.

Lemma reset_stops_autoplay_witness :
  let playing := togglePlay Sample.three_steps in
  cursor_of (ticks 2 playing) = (1, true) /\
  cursor_of (ticks 2 (handleRefresh playing)) = (-1, false) /\
  cursor_of (ticks 2 (fst (generateFlowchart playing))) = (-1, false).
Proof.
  intros playing.
  destruct (reset_stops_autoplay playing 2) as [Hr Hg].
  split; [reflexivity|]. split.
  - rewrite Hr. reflexivity.
  - rewrite (Hg eq_refl). reflexivity.
Defined.

(** X7.  With the autoplay paused, Step Back undoes Step Forward wherever
    Step Forward moves, and Step Forward undoes Step Back wherever Step
    Back moves: the whole state is as before. *)
Theorem manual_steps_undo_each_other (s : State) (steps : list value) :
  executionSteps s = VArr steps ->
  isPlaying s = false ->
  (-1 <= currentStep s < Z.of_nat (List.length steps) - 1 ->
   exists s1, stepForward s = Some s1 /\ stepBack s1 = s) /\
  (-1 < currentStep s <= Z.of_nat (List.length steps) - 1 ->
   stepForward (stepBack s) = Some s).
Proof.
  intros Hs Hp. destruct s as [c l f e cur pl lo em ca os ma so sm].
  simpl in Hs, Hp. subst e pl. split; intros Hc; simpl in Hc.
  - eexists. split; [reflexivity|].
    unfold stepBack, setCurrentStep, setIsPlaying. simpl.
    f_equal. lia.
  - unfold stepForward, stepBack, setCurrentStep, setIsPlaying. simpl.
    do 2 f_equal. lia.
Qed.

Lemma manual_steps_undo_each_other_witness :
  let s := setCurrentStep 1 Sample.three_steps in
  (exists s1, stepForward s = Some s1 /\ stepBack s1 = s) /\
  stepForward (stepBack s) = Some s.
Proof.
  intros s.
  destruct (manual_steps_undo_each_other s _ eq_refl eq_refl) as [Hf Hb].
  split; [apply Hf|apply Hb]; simpl; lia.
Defined.

(** X8.  A click on the enabled button with code that is not blank issues
    exactly one request, with the next generation number; its body carries
    the code as typed (not trimmed), the language and [advanced: true];
    and the button cannot be clicked again until something clears
    [loading]. *)
Theorem accepted_click_sends_one_request (w : World) :
  loading (ui w) = false ->
  blank (code (ui w)) = false ->
  let p := mkPending (code (ui w)) (language (ui w)) in
  exists w',
    step w ClickGenerate = Some w' /\
    inflight w' = inflight w ++ [(issued w, p)] /\
    issued w' = S (issued w) /\
    request_body p
    = VObj [ (units "code", VStr (code (ui w)));
             (units "language", VStr (language (ui w)));
             (units "advanced", VBool true) ] /\
    step w' ClickGenerate = None.
Proof.
  intros Hl Hb p. unfold step. rewrite Hl.
  destruct (generateFlowchart_accepted _ Hb) as (s' & -> & Hl' & _).
  eexists. split; [reflexivity|]. simpl. rewrite Hl'. repeat split.
Qed.

Lemma accepted_click_sends_one_request_witness :
  let w := mkWorld (setCode (units " x = 1 ") initial) [] 0 in
  exists w',
    step w ClickGenerate = Some w' /\
    inflight w' = [(0%nat, mkPending (units " x = 1 ") (units "python"))] /\
    step w' ClickGenerate = None.
Proof.
  intros w.
  destruct (accepted_click_sends_one_request w eq_refl eq_refl)
    as (w' & Hs & Hi & _ & _ & Hn).
  exists w'. split; [exact Hs|]. split; [exact Hi|exact Hn].
Defined.

(** A flowchart that is falsy after the defaulting is the empty string. *)
Lemma falsy_flowchart_is_empty (code : jsstring) (data : value)
  (a : AdvancedData) :
  advancedData code data = inr a ->
  truthy (flowchart a) = false -> flowchart a = VStr [].
Proof.
  intros Ha Hf.
  apply advancedData_fields in Ha as (f & e & c & o & m & _ & _ & _ & _ & _ & ->).
  simpl in *. unfold js_or in *. destruct (truthy f) eqn:Hfe; [congruence|].
  reflexivity.
Qed.



(** ** The helpers of the code parser *)

(** X10.  Given the same answer of the server, [fetchFlowchart] and the
    component sort it alike: the helper returns "Error fetching
    flowchart" where the component says "Server failed." and keeps its
    result; it returns "Error generating flowchart" where the component
    says "Error generating flowchart." and empties its flowchart; and it
    returns the flowchart that the component puts on display otherwise.
    The helper never returns a falsy value, so its caller cannot tell a
    failure from a flowchart by testing the result. *)
Theorem fetchFlowchart_sorts_like_the_component
  (r : FetchResult) (p : Pending) (s : State) :
  let v := CodeParser.fetchFlowchart r in
  let s' := generateFlowchart_settled p (Completed r) s in
  truthy v = true /\
  ((v = CodeParser.fetching_failed /\
    errorMsg s' = Msg.server_failed /\ result_of s' = result_of s) \/
   (v = CodeParser.no_flowchart /\
    errorMsg s' = Msg.generation_failed /\ flowchartSvg s' = VStr []) \/
   (v = flowchartSvg s' /\ errorMsg s' = errorMsg s)).
Proof.
  unfold CodeParser.fetchFlowchart, generateFlowchart_settled, try_block,
    await_data.
  destruct r as [|status body]; [split; [reflexivity|left; repeat split]|].
  destruct (response_ok status); cbn [negb];
    [|split; [reflexivity|left; repeat split]].
  destruct body as [data|]; [|split; [reflexivity|left; repeat split]].
  unfold advancedData, field, bind, ret, throw.
  destruct data as [| |b|n|str|items|props]; cbn [get];
    try solve [split; [reflexivity|left; repeat split; reflexivity]];
    try solve [split; [reflexivity|right; left; repeat split; reflexivity]].
  set (f := lookup (units "flowchart") props).
  unfold apply_response. cbn [flowchart].
  assert (Hf : truthy f = true \/ truthy f = false)
    by (destruct (truthy f); [left|right]; reflexivity).
  destruct Hf as [Hf|Hf].
  - rewrite !(js_or_truthy f _ Hf), Hf.
    split; [reflexivity|]. right. right. split; reflexivity.
  - rewrite !(js_or_falsy f _ Hf). cbn [truthy].
    split; [reflexivity|]. right. left. repeat split.
Qed.

(** X11.  [parsePythonCode] never throws and never returns a falsy value:
    its result is the [ast] of a 2xx answer that parses, when that [ast]
    is truthy, the one-element list "Parsing failed" when it is not, and
    the one-element list "Error parsing Python code" in every other
    case. *)
Theorem parsePythonCode_results (r : FetchResult) :
  let v := CodeParser.parsePythonCode r in
  truthy v = true /\
  ((exists status data,
      r = Response status (Some data) /\ response_ok status = true /\
      get data (units "ast") = Some v) \/
   (v = CodeParser.parsing_failed /\
    exists status data a,
      r = Response status (Some data) /\ response_ok status = true /\
      get data (units "ast") = Some a /\ truthy a = false) \/
   (v = CodeParser.parsing_error /\
    forall status data,
      r = Response status (Some data) -> response_ok status = true ->
      get data (units "ast") = None)).
Proof.
  unfold CodeParser.parsePythonCode, await_data.
  destruct r as [|status body].
  { split; [reflexivity|]. right. right. split; [reflexivity|].
    intros ? ? H. discriminate H. }
  destruct (response_ok status) eqn:Hok; cbn [negb].
  2:{ split; [reflexivity|]. right. right. split; [reflexivity|].
      intros ? ? H Hok'. injection H as -> _. congruence. }
  destruct body as [data|].
  2:{ split; [reflexivity|]. right. right. split; [reflexivity|].
      intros ? ? H. discriminate H. }
  unfold field, bind, ret, throw.
  destruct (get data (units "ast")) as [a|] eqn:Ha.
  - unfold js_or. destruct (truthy a) eqn:Hta.
    + split; [exact Hta|]. left. exists status, data. repeat split; assumption.
    + split; [reflexivity|]. right. left. split; [reflexivity|].
      exists status, data, a. repeat split; assumption.
  - split; [reflexivity|]. right. right. split; [reflexivity|].
    intros ? ? H _. injection H as _ <-. exact Ha.
Qed.

(** ** Highlighting *)

Lemma jsstring_eqb_eq (a b : jsstring) : jsstring_eqb a b = true <-> a = b.
Proof.
  revert b. induction a as [|x a IH]; intros [|y b]; simpl;
    try (split; [discriminate|discriminate]); [tauto|].
  rewrite andb_true_iff, Z.eqb_eq, IH. split.
  - intros [-> ->]. reflexivity.
  - intros H. injection H as -> ->. split; reflexivity.
Qed.

Lemma glow_is_not_none : Highlight.glow <> Highlight.none.
Proof. vm_compute. discriminate. Qed.

(** X12.  With a flowchart on display and the cursor on a step whose
    [node_id] is the string [id], the effect leaves the nodes and their
    titles in place, makes exactly the nodes titled [id] glow and sets the
    filter of every other node to [none], whatever their filters were; it
    warns exactly when no node glows afterwards.  With no flowchart on
    display, or with the cursor idle, it touches no node and warns
    nothing. *)
Theorem highlight_marks_the_current_node
  (nodes : list Highlight.Node) (s : State) (steps : list value)
  (props : list (jsstring * value)) (id : jsstring) :
  (truthy (flowchartSvg s) = false \/ currentStep s < 0 ->
   Highlight.effect nodes s = (nodes, None)) /\
  (truthy (flowchartSvg s) = true ->
   executionSteps s = VArr steps ->
   0 <= currentStep s ->
   nth_error steps (Z.to_nat (currentStep s)) = Some (VObj props) ->
   lookup (units "node_id") props = VStr id ->
   let (nodes', warning) := Highlight.effect nodes s in
   map Highlight.title nodes' = map Highlight.title nodes /\
   Forall (fun n => (Highlight.filter_style n = Highlight.glow
                     <-> Highlight.title n = Some id) /\
                    (Highlight.filter_style n = Highlight.none
                     <-> Highlight.title n <> Some id)) nodes' /\
   (warning = None
    <-> exists n, In n nodes' /\ Highlight.filter_style n = Highlight.glow) /\
   (warning <> None -> warning = Some (VStr id))).
Proof.
  split.
  { unfold Highlight.effect. intros [->|Hc]; [reflexivity|].
    apply Z.leb_gt in Hc. rewrite Hc, andb_false_r. reflexivity. }
  intros Hfl Hs Hc Hn Hid. unfold Highlight.effect.
  apply Z.leb_le in Hc. rewrite Hfl, Hc, Hs. cbn [Highlight.item andb].
  rewrite (nth_error_nth _ _ VUndefined Hn). cbn [truthy get]. rewrite Hid.
  assert (Ht : forall n, Highlight.title_is (VStr id) n = true
                         <-> Highlight.title n = Some id).
  { intros n. unfold Highlight.title_is.
    destruct (Highlight.title n) as [t|].
    - rewrite jsstring_eqb_eq. split; [intros ->; reflexivity|].
      intros H. injection H as ->. reflexivity.
    - split; discriminate. }
  assert (Hstyle : forall n,
            (Highlight.filter_style (Highlight.restyle (VStr id) n)
             = Highlight.glow <-> Highlight.title n = Some id) /\
            (Highlight.filter_style (Highlight.restyle (VStr id) n)
             = Highlight.none <-> Highlight.title n <> Some id)).
  { intros n. unfold Highlight.restyle.
    destruct (Highlight.title_is (VStr id) n) eqn:E; simpl.
    - apply Ht in E. split; split; intros H; try reflexivity; try exact E.
      + exfalso. apply glow_is_not_none. exact H.
      + contradiction.
    - assert (Hno : Highlight.title n <> Some id).
      { intros H. apply Ht in H. congruence. }
      split; split; intros H; try reflexivity; try exact Hno.
      + exfalso. apply glow_is_not_none. symmetry. exact H.
      + contradiction. }
  assert (Htitle : forall n,
            Highlight.title (Highlight.restyle (VStr id) n) = Highlight.title n).
  { intros n. unfold Highlight.restyle.
    destruct (Highlight.title_is (VStr id) n); reflexivity. }
  split; [|split; [|split]].
  - rewrite map_map. apply map_ext. exact Htitle.
  - apply Forall_forall. intros n' Hin. apply in_map_iff in Hin as (n & <- & _).
    rewrite Htitle. apply Hstyle.
  - destruct (existsb (Highlight.title_is (VStr id)) nodes) eqn:E.
    + split; [intros _|reflexivity].
      apply existsb_exists in E as (n & Hin & Hn').
      exists (Highlight.restyle (VStr id) n). split.
      * apply in_map. exact Hin.
      * apply Hstyle, Ht, Hn'.
    + split; [discriminate|]. intros (n' & Hin & Hg).
      apply in_map_iff in Hin as (n & <- & Hin).
      apply Hstyle, Ht in Hg.
      assert (existsb (Highlight.title_is (VStr id)) nodes = true)
        by (apply existsb_exists; exists n; split; assumption).
      congruence.
  - destruct (existsb (Highlight.title_is (VStr id)) nodes);
      [intros H; contradiction|reflexivity].
Qed.

Lemma highlight_marks_the_current_node_witness :
  let nodes := [ Highlight.mkNode (Some (units "n1")) Highlight.glow;
                 Highlight.mkNode (Some (units "n2")) Highlight.none;
                 Highlight.mkNode None Highlight.glow ] in
  let s := setCurrentStep 1 Sample.three_steps in
  map Highlight.filter_style (fst (Highlight.effect nodes s))
  = [Highlight.none; Highlight.glow; Highlight.none] /\
  map Highlight.title (fst (Highlight.effect nodes s))
  = map Highlight.title nodes /\
  Highlight.effect nodes (setFlowchartSvg (VStr []) s) = (nodes, None).
Proof.
  intros nodes s.
  destruct (highlight_marks_the_current_node nodes s
              [Sample.a_step "n1"; Sample.a_step "n2"; Sample.a_step "n3"]
              [ (units "node_id", VStr (units "n2"));
                (units "description", VStr (units "print")) ]
              (units "n2")) as [_ H].
  specialize (H eq_refl eq_refl ltac:(simpl; lia) eq_refl eq_refl).
  destruct (highlight_marks_the_current_node nodes
              (setFlowchartSvg (VStr []) s) [] [] []) as [Hoff _].
  split; [|split; [|exact (Hoff (or_introl eq_refl))]].
  - destruct (Highlight.effect nodes s) as [nodes' warning] eqn:E.
    injection E as <- _. reflexivity.
  - destruct (Highlight.effect nodes s) as [nodes' warning] eqn:E.
    destruct H as (Ht & _). exact Ht.
Defined.

(** ** Downloading *)

(** X13.  Wherever the Download button is rendered, [downloadFlowchart]
    hands over the file [flowchart.svg] made of the flowchart on display
    and leaves the state alone: its "No flowchart to download!" branch
    cannot be reached from the page. *)
Theorem download_button_always_downloads (s : State) :
  controls_shown s = true ->
  downloadFlowchart s
  = (s, Some (mkDownload [flowchartSvg s] "image/svg+xml" "flowchart.svg")).
Proof.
  unfold controls_shown, downloadFlowchart. intros H.
  apply andb_true_iff in H as [-> _]. reflexivity.
Qed.

Lemma download_button_always_downloads_witness :
  controls_shown Sample.three_steps = true /\
  option_map blob_parts (snd (downloadFlowchart Sample.three_steps))
  = Some [Sample.svg "<svg/>"] /\
  fst (downloadFlowchart Sample.three_steps) = Sample.three_steps.
Proof.
  split; [reflexivity|].
  rewrite (download_button_always_downloads Sample.three_steps eq_refl).
  split; reflexivity.
Defined.

(** ** The rewriting of loop headers in the default optimized code *)

Lemma whitespace_is_no_word (c : Z) :
  is_whitespace c = true -> is_word c = false.
Proof.
  intros Hw. destruct (is_word c) eqn:Hword; [|reflexivity]. exfalso.
  unfold is_whitespace in Hw. unfold is_word in Hword.
  repeat match goal with
         | H : _ || _ = true |- _ =>
             apply orb_true_iff in H; destruct H as [H|H]
         | H : _ && _ = true |- _ =>
             apply andb_true_iff in H; destruct H as [? H]
         | H : (_ =? _) = true |- _ => apply Z.eqb_eq in H
         | H : (_ <=? _) = true |- _ => apply Z.leb_le in H
         end; lia.
Qed.

Lemma word_is_no_whitespace (c : Z) :
  is_word c = true -> is_whitespace c = false.
Proof.
  intros Hword. destruct (is_whitespace c) eqn:Hw; [|reflexivity].
  rewrite (whitespace_is_no_word c Hw) in Hword. discriminate.
Qed.

(** A greedy repetition that can stop after [run] does not stop
    earlier. *)
Lemma greedy_run (cls : Z -> bool) (k : jsstring -> option jsstring)
  (run rest r : jsstring) :
  forallb cls run = true ->
  greedy cls k rest = Some r ->
  greedy cls k (run ++ rest) = Some r.
Proof.
  intros Hrun Hk. induction run as [|c run IH]; simpl; [exact Hk|].
  simpl in Hrun. apply andb_true_iff in Hrun as [Hc Hrun].
  rewrite Hc, (IH Hrun). reflexivity.
Qed.

Lemma greedy_stop (cls : Z -> bool) (k : jsstring -> option jsstring)
  (c : Z) (rest : jsstring) :
  cls c = false -> greedy cls k (c :: rest) = k (c :: rest).
Proof. intros H. simpl. rewrite H. reflexivity. Qed.

Lemma match_plus (cls : Z -> bool) (p : list atom) (c : Z)
  (run rest r : jsstring) :
  forallb cls (c :: run) = true ->
  greedy cls (match_atoms p) rest = Some r ->
  match_atoms (Plus cls :: p) ((c :: run) ++ rest) = Some r.
Proof.
  intros Hrun Hk. simpl in Hrun. apply andb_true_iff in Hrun as [Hc Hrun].
  simpl. rewrite Hc. apply greedy_run; assumption.
Qed.

Lemma strip_prefix_app (l s : jsstring) : strip_prefix l (l ++ s) = Some s.
Proof.
  induction l as [|x l IH]; simpl; [destruct s; reflexivity|].
  rewrite Z.eqb_refl. exact IH.
Qed.

Lemma match_lit (l : jsstring) (p : list atom) (s : jsstring) :
  match_atoms (Lit l :: p) (l ++ s) = match_atoms p s.
Proof. simpl. rewrite strip_prefix_app. reflexivity. Qed.

(** [.*\):] on the rest of a line that ends with [):] takes the whole
    rest, also when [):] occurs earlier in it. *)
Lemma match_up_to_last_colon (args : jsstring) :
  forallb is_dot args = true ->
  greedy is_dot (match_atoms [Lit (units "):")]) (args ++ units "):")
  = Some [].
Proof.
  intros H. induction args as [|c args IH]; [reflexivity|].
  simpl in H. apply andb_true_iff in H as [Hc Hargs].
  cbn [app greedy]. rewrite Hc, (IH Hargs). reflexivity.
Qed.

Lemma replace_skips_all (p : list atom) (repl s : jsstring) (n : nat) :
  (List.length s <= n)%nat -> replace_from p repl n s = [].
Proof.
  revert n. induction s as [|c s IH]; intros n Hn; [reflexivity|].
  destruct n as [|n]; simpl in Hn; [lia|].
  simpl. apply IH. lia.
Qed.

Lemma replace_whole (p : list atom) (repl s : jsstring) :
  s <> [] -> match_atoms p s = Some [] -> replace_all p repl s = repl.
Proof.
  intros Hs Hm. destruct s as [|c s]; [congruence|].
  unfold replace_all. cbn [replace_from]. rewrite Hm.
  rewrite replace_skips_all by (simpl; lia). apply app_nil_r.
Qed.

(** The words in front of the arguments are matched in one way only:
    each run of white space and the identifier are taken whole. *)
Lemma match_header_front (w1 name w2 w3 tail r : jsstring) :
  w1 <> [] -> blank w1 = true ->
  name <> [] -> forallb is_word name = true ->
  w2 <> [] -> blank w2 = true ->
  w3 <> [] -> blank w3 = true ->
  greedy is_dot (match_atoms [Lit (units "):")]) tail = Some r ->
  match_atoms Defaults.for_range
    (units "for" ++ w1 ++ name ++ w2 ++ units "in" ++ w3
     ++ units "range(" ++ tail)
  = Some r.
Proof.
  intros H1 B1 Hn Bn H2 B2 H3 B3 Ht.
  unfold Defaults.for_range. rewrite match_lit.
  destruct w1 as [|a1 w1]; [congruence|].
  destruct name as [|a2 name]; [congruence|].
  destruct w2 as [|a3 w2]; [congruence|].
  destruct w3 as [|a4 w3]; [congruence|].
  apply match_plus; [exact B1|].
  pose proof Bn as Bn'. cbn [forallb] in Bn'.
  apply andb_true_iff in Bn' as [Ha2 _].
  cbn [app]. rewrite (greedy_stop _ _ a2 _ (word_is_no_whitespace a2 Ha2)).
  change (a2 :: name ++ (a3 :: w2) ++ units "in" ++ (a4 :: w3)
          ++ units "range(" ++ tail)
    with ((a2 :: name) ++ (a3 :: w2) ++ units "in" ++ (a4 :: w3)
          ++ units "range(" ++ tail).
  apply match_plus; [exact Bn|].
  pose proof B2 as B2'. unfold blank in B2'. cbn [forallb] in B2'.
  apply andb_true_iff in B2' as [Ha3 _].
  cbn [app]. rewrite (greedy_stop _ _ a3 _ (whitespace_is_no_word a3 Ha3)).
  change (a3 :: w2 ++ units "in" ++ (a4 :: w3) ++ units "range(" ++ tail)
    with ((a3 :: w2) ++ units "in" ++ (a4 :: w3) ++ units "range(" ++ tail).
  apply match_plus; [exact B2|].
  change (units "in") with [105; 110]. cbn [app].
  rewrite greedy_stop by reflexivity.
  change (105 :: 110 :: a4 :: w3 ++ units "range(" ++ tail)
    with (units "in" ++ (a4 :: w3) ++ units "range(" ++ tail).
  rewrite match_lit.
  apply match_plus; [exact B3|].
  change (units "range(") with [114; 97; 110; 103; 101; 40]. cbn [app].
  rewrite greedy_stop by reflexivity.
  change (114 :: 97 :: 110 :: 103 :: 101 :: 40 :: tail)
    with (units "range(" ++ tail).
  rewrite match_lit. cbn [match_atoms]. exact Ht.
Qed.

(** X14.  A line [for <name> in range(<args>):], with any white space
    between its words, any identifier and any arguments that stay on the
    line, is rewritten as a whole into the fixed snippet; a [):] inside
    the arguments does not end the match early. *)
Theorem loop_header_becomes_the_snippet
  (w1 name w2 w3 args : jsstring) :
  w1 <> [] -> blank w1 = true ->
  name <> [] -> forallb is_word name = true ->
  w2 <> [] -> blank w2 = true ->
  w3 <> [] -> blank w3 = true ->
  forallb is_dot args = true ->
  Defaults.optimized_code
    (units "for" ++ w1 ++ name ++ w2 ++ units "in" ++ w3
     ++ units "range(" ++ args ++ units "):")
  = Defaults.lookup_snippet.
Proof.
  intros H1 B1 Hn Bn H2 B2 H3 B3 Ba. unfold Defaults.optimized_code.
  apply replace_whole; [discriminate|].
  apply match_header_front; try assumption.
  apply match_up_to_last_colon. exact Ba.
Qed.

Lemma loop_header_becomes_the_snippet_witness :
  Defaults.optimized_code (units "for  i in range(len(xs)): f(x):")
  = Defaults.lookup_snippet.
Proof.
  exact (loop_header_becomes_the_snippet
           (units "  ") (units "i") (units " ") (units " ")
           (units "len(xs)): f(x")
           ltac:(discriminate) eq_refl ltac:(discriminate) eq_refl
           ltac:(discriminate) eq_refl ltac:(discriminate) eq_refl eq_refl).
Defined.

(** What a greedy repetition took is a run of the class, and the rest is
    what the continuation matched. *)
Lemma greedy_inv (cls : Z -> bool) (k : jsstring -> option jsstring)
  (s r : jsstring) :
  greedy cls k s = Some r ->
  exists run rest,
    s = run ++ rest /\ forallb cls run = true /\ k rest = Some r.
Proof.
  induction s as [|c s IH]; simpl; intros H.
  - exists [], []. repeat split. exact H.
  - destruct (cls c) eqn:Hc.
    + destruct (greedy cls k s) as [r'|] eqn:Hg.
      * injection H as ->. destruct (IH eq_refl) as (run & rest & -> & Hr & Hk).
        exists (c :: run), rest. simpl. rewrite Hc, Hr. repeat split. exact Hk.
      * exists [], (c :: s). repeat split. exact H.
    + exists [], (c :: s). repeat split. exact H.
Qed.

(** A greedy repetition matches whenever its continuation does. *)
Lemma greedy_fallback (cls : Z -> bool) (k : jsstring -> option jsstring)
  (s r : jsstring) :
  k s = Some r -> exists r', greedy cls k s = Some r'.
Proof.
  intros H. destruct s as [|c s]; simpl; [exists r; exact H|].
  destruct (cls c); [|exists r; exact H].
  destruct (greedy cls k s) as [r'|]; [exists r'; reflexivity|].
  exists r. exact H.
Qed.

Lemma strip_prefix_inv (l s s' : jsstring) :
  strip_prefix l s = Some s' -> s = l ++ s'.
Proof.
  revert s. induction l as [|x l IH]; intros s H; simpl in H.
  - destruct s; injection H as <-; reflexivity.
  - destruct s as [|y s]; [discriminate|].
    destruct (Z.eqb_spec x y) as [->|]; [|discriminate].
    simpl. f_equal. apply IH. exact H.
Qed.

Lemma lit_inv (l : jsstring) (p : list atom) (s r : jsstring) :
  match_atoms (Lit l :: p) s = Some r ->
  exists rest, s = l ++ rest /\ match_atoms p rest = Some r.
Proof.
  simpl. destruct (strip_prefix l s) as [s'|] eqn:Hs; [|discriminate].
  intros H. exists s'. split; [apply strip_prefix_inv, Hs|exact H].
Qed.

Lemma plus_inv (cls : Z -> bool) (p : list atom) (s r : jsstring) :
  match_atoms (Plus cls :: p) s = Some r ->
  exists run rest,
    s = run ++ rest /\ run <> [] /\ forallb cls run = true /\
    match_atoms p rest = Some r.
Proof.
  simpl. destruct s as [|c s]; [discriminate|].
  destruct (cls c) eqn:Hc; [|discriminate]. intros H.
  apply greedy_inv in H as (run & rest & -> & Hr & Hk).
  exists (c :: run), rest. simpl. rewrite Hc, Hr.
  repeat split; [discriminate|exact Hk].
Qed.

(** Every match of the pattern is a loop header. *)
Lemma match_is_loop_header (s r : jsstring) :
  match_atoms Defaults.for_range s = Some r ->
  exists line, loop_header line /\ s = line ++ r.
Proof.
  unfold Defaults.for_range. intros H.
  apply lit_inv in H as (s1 & -> & H).
  apply plus_inv in H as (w1 & s2 & -> & H1 & B1 & H).
  apply plus_inv in H as (name & s3 & -> & Hn & Bn & H).
  apply plus_inv in H as (w2 & s4 & -> & H2 & B2 & H).
  apply lit_inv in H as (s5 & -> & H).
  apply plus_inv in H as (w3 & s6 & -> & H3 & B3 & H).
  apply lit_inv in H as (s7 & -> & H).
  change (greedy is_dot (match_atoms [Lit (units "):")]) s7 = Some r) in H.
  apply greedy_inv in H as (args & s8 & -> & Ba & H).
  apply lit_inv in H as (s9 & -> & H). injection H as ->.
  exists (units "for" ++ w1 ++ name ++ w2 ++ units "in" ++ w3
          ++ units "range(" ++ args ++ units "):").
  split.
  - exists w1, name, w2, w3, args. repeat split; assumption.
  - rewrite <- !app_assoc. reflexivity.
Qed.

(** Every loop header is matched, whatever follows it. *)
Lemma loop_header_is_matched (line post : jsstring) :
  loop_header line ->
  exists r, match_atoms Defaults.for_range (line ++ post) = Some r.
Proof.
  intros (w1 & name & w2 & w3 & args & [H1 B1] & [Hn Bn] & [H2 B2] & [H3 B3]
          & Ba & ->).
  destruct (greedy_fallback is_dot (match_atoms [Lit (units "):")])
              (units "):" ++ post) post) as [r Hr].
  { rewrite match_lit. reflexivity. }
  exists r. rewrite <- !app_assoc.
  apply match_header_front; try assumption.
  apply greedy_run; assumption.
Qed.

(** The rewriting changes the code when some match starts in it, and
    only then. *)
Lemma replace_changes_iff_match (s : jsstring) :
  replace_all Defaults.for_range Defaults.lookup_snippet s <> s
  <-> exists pre suf r,
        s = pre ++ suf /\ match_atoms Defaults.for_range suf = Some r.
Proof.
  unfold replace_all. induction s as [|c s IH].
  - split; [intros H; exfalso; apply H; reflexivity|].
    intros (pre & suf & r & Hs & Hm).
    symmetry in Hs. apply app_eq_nil in Hs as [_ ->]. discriminate Hm.
  - cbn [replace_from].
    destruct (match_atoms Defaults.for_range (c :: s)) as [r|] eqn:Hm.
    + split.
      * intros _. exists [], (c :: s), r. split; [reflexivity|exact Hm].
      * intros _ Heq.
        apply lit_inv in Hm as (rest & Hc & _).
        change (units "for" ++ rest) with (102 :: 111 :: 114 :: rest) in Hc.
        injection Hc as -> _. discriminate Heq.
    + split.
      * intros Hne. assert (Hs : replace_from Defaults.for_range
                                   Defaults.lookup_snippet 0 s <> s)
          by (intros E; apply Hne; rewrite E; reflexivity).
        apply IH in Hs as (pre & suf & r & -> & Hr).
        exists (c :: pre), suf, r. split; [reflexivity|exact Hr].
      * intros (pre & suf & r & Hs & Hr) Heq.
        destruct pre as [|c' pre].
        -- simpl in Hs. subst suf. congruence.
        -- simpl in Hs. injection Hs as <- ->.
           injection Heq as Heq. revert Heq. apply IH.
           exists pre, suf, r. split; [reflexivity|exact Hr].
Qed.

(** X15.  The default optimized code differs from the submitted code
    exactly when the code contains a loop header
    [for <name> in range(<args>):]. *)
Theorem optimized_code_differs_iff_loop_header (code : jsstring) :
  Defaults.optimized_code code <> code
  <-> exists pre line post, code = pre ++ line ++ post /\ loop_header line.
Proof.
  unfold Defaults.optimized_code. rewrite replace_changes_iff_match. split.
  - intros (pre & suf & r & -> & Hm).
    apply match_is_loop_header in Hm as (line & Hl & ->).
    exists pre, line, r. split; [reflexivity|exact Hl].
  - intros (pre & line & post & -> & Hl).
    destruct (loop_header_is_matched line post Hl) as [r Hr].
    exists pre, (line ++ post), r. split; [reflexivity|exact Hr].
Qed.

(** ** The spinner *)

Lemma take_request_length (g : nat) (l rest : list (nat * Pending))
  (p : Pending) :
  take_request g l = Some (p, rest) -> List.length l = S (List.length rest).
Proof.
  revert rest. induction l as [|[g' q] l IH]; intros rest H; simpl in H;
    [discriminate|].
  destruct (Nat.eqb g g').
  - injection H as _ <-. reflexivity.
  - destruct (take_request g l) as [[q' rest']|]; [|discriminate].
    injection H as <- <-. simpl. f_equal. apply (IH rest' eq_refl).
Qed.

Lemma step_keeps_spinner_backed (w w' : World) (e : Event) :
  (loading (ui w) = true -> inflight w <> []) ->
  step w e = Some w' ->
  loading (ui w') = true -> inflight w' <> [].
Proof.
  intros Hw Hs. destruct e; simpl in Hs.
  - injection Hs as <-. exact Hw.
  - destruct (loading (ui w)) eqn:Hl; [discriminate|].
    destruct (blank (code (ui w))) eqn:Hb.
    + rewrite (generateFlowchart_rejected _ Hb) in Hs.
      injection Hs as <-. simpl. congruence.
    + destruct (generateFlowchart_accepted _ Hb) as (s' & Hg & _).
      rewrite Hg in Hs. injection Hs as <-. simpl.
      intros _ H. apply app_eq_nil in H as [_ H]. discriminate H.
  - injection Hs as <-. simpl. discriminate.
  - destruct (take_request g (inflight w)) as [[p rest]|]; [|discriminate].
    injection Hs as <-. simpl.
    destruct (settled_keeps_cursor p o (ui w)) as [Hl _]. congruence.
  - destruct (controls_shown (ui w)); [|discriminate].
    injection Hs as <-. exact Hw.
  - destruct (controls_shown (ui w) && negb (stepBack_disabled (ui w)));
      [|discriminate].
    injection Hs as <-. exact Hw.
  - destruct (controls_shown (ui w) && negb (stepForward_disabled (ui w)));
      [|discriminate].
    unfold stepForward in Hs.
    destruct (length_of (executionSteps (ui w))); [|discriminate].
    injection Hs as <-. exact Hw.
  - injection Hs as <-. simpl.
    destruct (tick_cursor (ui w)) as [->|(n & _ & _ & ->)]; exact Hw.
Qed.

(** X16.  In every run of the component: while the button is disabled
    and shows "Generating..." a request is awaited.  Every request that
    settles, in whatever way, and every refresh enables the button
    again. *)
Theorem spinner_means_awaited_request (es : list Event) (w : World) :
  run boot es = Some w ->
  (loading (ui w) = true -> inflight w <> []) /\
  (forall g o w', step w (Settle g o) = Some w' ->
                  loading (ui w') = false /\
                  List.length (inflight w) = S (List.length (inflight w'))) /\
  (forall w', step w ClickRefresh = Some w' ->
              loading (ui w') = false /\ inflight w' = inflight w).
Proof.
  intros Hr. split; [|split].
  - assert (H : forall es w0 w,
                (loading (ui w0) = true -> inflight w0 <> []) ->
                run w0 es = Some w ->
                loading (ui w) = true -> inflight w <> []).
    { clear es w Hr. induction es as [|e es IH]; intros w0 w H0 Hr;
        simpl in Hr.
      - injection Hr as <-. exact H0.
      - destruct (step w0 e) as [w1|] eqn:Hs; [|discriminate].
        apply (IH w1 w); [|exact Hr].
        apply (step_keeps_spinner_backed w0 w1 e H0 Hs). }
    apply (H es boot w); [discriminate|exact Hr].
  - intros g o w' Hs. simpl in Hs.
    destruct (take_request g (inflight w)) as [[p rest]|] eqn:Ht;
      [|discriminate].
    injection Hs as <-. cbn [ui inflight]. split.
    + apply settled_keeps_cursor.
    + apply (take_request_length g _ _ p Ht).
  - intros w' Hs. injection Hs as <-. split; reflexivity.
Qed.

Lemma spinner_means_awaited_request_witness :
  let es := [Edit (units "slow()"); ClickGenerate] in
  exists w,
    run boot es = Some w /\
    loading (ui w) = true /\
    inflight w <> [] /\
    (exists w', step w (Settle 0 Aborted) = Some w' /\
                loading (ui w') = false).
Proof.
  intros es.
  assert (H : exists w, run boot es = Some w /\ loading (ui w) = true /\
                        exists w', step w (Settle 0 Aborted) = Some w').
  { eexists. split; [vm_compute; reflexivity|]. split; [reflexivity|].
    eexists. reflexivity. }
  destruct H as (w & Hr & Hl & w' & Hs).
  destruct (spinner_means_awaited_request es w Hr) as (Hb & Hsettle & _).
  exists w. split; [exact Hr|]. split; [exact Hl|]. split; [exact (Hb Hl)|].
  exists w'. split; [exact Hs|]. exact (proj1 (Hsettle 0%nat Aborted w' Hs)).
Defined.
